(** * RecogLMDBDataset: the LMDB annotation reader of mmocr

    A shallow embedding of [mmocr/datasets/recog_lmdb_dataset.py]:
    the constructor, which probes the store for its record count, its
    format and the presence of images, and [load_data_list] with
    [parse_data_info], which read every record and normalise it.

    Conventions of the embedding.
    - A Python [bytes] value is a [string] (a sequence of 8-bit
      characters).  A Python [str] is represented by its UTF-8 encoding,
      also a [string]: [encode('utf-8')] does not change the
      representation and [decode('utf-8')] checks well-formedness.  The
      string operations of the source ([strip], [split(' ')],
      [startswith('/')], the escapes of [json.dumps]) only look for
      ASCII characters, whose bytes never occur inside a multi-byte
      UTF-8 sequence, so they act on the encoding as on the text.
    - The LMDB environment is a finite map from keys to values; the
      directory tree in which [lmdb.open] looks is a finite map from
      paths to environments.
    - Exceptions are results [Raise e]; every access to the store is
      logged, so that what is read, and when, can be stated. *)

From Stdlib Require Import ZArith DecimalString DecimalPos Ascii String.
From stdpp Require Import gmap strings list.

Local Open Scope string_scope.
Local Open Scope Z_scope.

(** ** Exceptions and results *)

(** The exceptions the module can raise, by Python class and cause. *)
Inductive exn : Type :=
| ValueError_unsupported_parser  (* line 77: raise ValueError('We only support ...') *)
| ConfigError_parser_keys        (* raised while TASK_UTILS.build builds the parser *)
| lmdb_Error                     (* lmdb.open cannot open ann_file *)
| AttributeError_NoneType_decode (* txn.get(k) is None, then .decode('utf-8') *)
| UnicodeDecodeError             (* bytes.decode('utf-8') of ill-formed bytes *)
| ValueError_int                 (* int(s): invalid literal for int() *)
| ValueError_unpack              (* filename, text = <list of length other than 2> *)
| IndexError                     (* self.parser.keys[k] out of range *)
| KeyError                       (* parsed_anno[key], key absent *)
| ParserError.                   (* an exception raised inside the line parser *)

#[global] Instance exn_eq_dec : EqDecision exn.
Proof. solve_decision. Defined.

Inductive result (A : Type) : Type :=
| OK (a : A)
| Raise (e : exn).
Arguments OK {A} a.
Arguments Raise {A} e.

(** ** The log of store accesses *)

Inductive event : Type :=
| Open (path : string)   (* lmdb.open(path, readonly=True, ...) *)
| Get (key : string)     (* txn.get(key) *)
| Warn.                  (* warnings.warn(..., UserWarning) *)

#[global] Instance event_eq_dec : EqDecision event.
Proof. solve_decision. Defined.

Class Logger (S : Type) := log_event : event -> S -> S.

#[global] Instance list_logger : Logger (list event) :=
  fun ev io => (io ++ [ev])%list.

(** ** A state and exception monad *)

Definition M (S A : Type) : Type := S -> result A * S.

Definition ret {S A} (a : A) : M S A := fun s => (OK a, s).

Definition raise {S A} (e : exn) : M S A := fun s => (Raise e, s).

Definition bind {S A B} (m : M S A) (k : A -> M S B) : M S B :=
  fun s => match m s with
           | (OK a, s') => k a s'
           | (Raise e, s') => (Raise e, s')
           end.

Notation "x <- m ;; k" := (bind m (fun x => k))
  (at level 100, m at next level, right associativity).
Notation "m ;;; k" := (bind m (fun _ => k))
  (at level 100, right associativity).

Definition lift {S A} (r : result A) : M S A := fun s => (r, s).

Definition emit {S} `{Logger S} (ev : event) : M S unit :=
  fun s => (OK tt, log_event ev s).

(** [try: m except AttributeError: h] *)
Definition try_except_AttributeError {S A} (m h : M S A) : M S A :=
  fun s => match m s with
           | (Raise AttributeError_NoneType_decode, s') => h s'
           | r => r
           end.

(** ** Strings: the library functions the module calls *)

Definition Env : Type := gmap string string.

(** [bytes.decode('utf-8')], strict: the automaton of well-formed UTF-8
    byte sequences (no overlong forms, no surrogates, at most U+10FFFF). *)
Inductive utf8_state : Type :=
| U_start | U_tail1 | U_tail2 | U_tail3 | U_E0 | U_ED | U_F0 | U_F4.

Definition in_range (lo hi b : N) : bool := ((lo <=? b) && (b <=? hi))%N.

Definition utf8_step (st : utf8_state) (b : N) : option utf8_state :=
  match st with
  | U_start =>
      if in_range 0 127 b then Some U_start
      else if in_range 194 223 b then Some U_tail1
      else if (b =? 224)%N then Some U_E0
      else if in_range 225 236 b || in_range 238 239 b then Some U_tail2
      else if (b =? 237)%N then Some U_ED
      else if (b =? 240)%N then Some U_F0
      else if in_range 241 243 b then Some U_tail3
      else if (b =? 244)%N then Some U_F4
      else None
  | U_tail1 => if in_range 128 191 b then Some U_start else None
  | U_tail2 => if in_range 128 191 b then Some U_tail1 else None
  | U_tail3 => if in_range 128 191 b then Some U_tail2 else None
  | U_E0 => if in_range 160 191 b then Some U_tail1 else None
  | U_ED => if in_range 128 159 b then Some U_tail1 else None
  | U_F0 => if in_range 144 191 b then Some U_tail2 else None
  | U_F4 => if in_range 128 143 b then Some U_tail2 else None
  end.

Fixpoint utf8_run (st : utf8_state) (b : string) : bool :=
  match b with
  | EmptyString => match st with U_start => true | _ => false end
  | String c rest =>
      match utf8_step st (N_of_ascii c) with
      | Some st' => utf8_run st' rest
      | None => false
      end
  end.

Definition decode_utf8 (b : string) : result string :=
  if utf8_run U_start b then OK b else Raise UnicodeDecodeError.

(** [txn.get(k).decode('utf-8')]: [txn.get] returns [None] for an absent
    key, and [None] has no attribute [decode]. *)
Definition decode (v : option string) : result string :=
  match v with
  | None => Raise AttributeError_NoneType_decode
  | Some b => decode_utf8 b
  end.

(** [str(i)] for an integer. *)
Definition str (i : Z) : string := NilZero.string_of_int (Z.to_int i).

Fixpoint zeros (n : nat) : string :=
  match n with
  | O => EmptyString
  | S n' => String "0" (zeros n')
  end.

(** [f'{i:09d}']: sign-aware zero padding to width 9, never truncating. *)
Definition format_09d (i : Z) : string :=
  if i <? 0 then
    let d := str (- i) in "-" ++ zeros (8 - String.length d) ++ d
  else
    let d := str i in zeros (9 - String.length d) ++ d.

Definition label_key (i : Z) : string := "label-" ++ format_09d i.
Definition image_key (i : Z) : string := "image-" ++ format_09d i.

(** [s.strip(chars)] *)
Fixpoint mem_char (c : ascii) (chars : string) : bool :=
  match chars with
  | EmptyString => false
  | String d rest => Ascii.eqb c d || mem_char c rest
  end.

Fixpoint lstrip (chars s : string) : string :=
  match s with
  | EmptyString => EmptyString
  | String c rest => if mem_char c chars then lstrip chars rest else s
  end.

Fixpoint rstrip (chars s : string) : string :=
  match s with
  | EmptyString => EmptyString
  | String c rest =>
      match rstrip chars rest with
      | EmptyString => if mem_char c chars then EmptyString else String c EmptyString
      | r => String c r
      end
  end.

Definition strip (chars s : string) : string := rstrip chars (lstrip chars s).

(** [s.split(sep)] for a separator of one character: one field more
    than there are separators, empty fields included. *)
Fixpoint split (sep : ascii) (s : string) : list string :=
  match s with
  | EmptyString => [EmptyString]
  | String c rest =>
      if Ascii.eqb c sep then EmptyString :: split sep rest
      else match split sep rest with
           | f :: fs => String c f :: fs
           | [] => [String c EmptyString]
           end
  end.

(** [osp.join(a, b)] of posixpath. *)
Definition startswith_sep (s : string) : bool :=
  match s with
  | String c _ => Ascii.eqb c "/"
  | EmptyString => false
  end.

Fixpoint endswith_sep (s : string) : bool :=
  match s with
  | EmptyString => false
  | String c EmptyString => Ascii.eqb c "/"
  | String _ rest => endswith_sep rest
  end.

Definition osp_join (a b : string) : string :=
  if startswith_sep b then b
  else if String.eqb a EmptyString || endswith_sep a then a ++ b
  else a ++ "/" ++ b.

(** [json.dumps(dict(filename=f, text=t), ensure_ascii=False)]: the
    string escapes of the encoder, then the object with the default
    separators. *)
(** The double quote, character 34. *)
Definition dq : ascii := Eval cbv in ascii_of_N 34.
Definition dquote : string := String dq EmptyString.

Definition hex_digit (n : N) : ascii :=
  if (n <? 10)%N then ascii_of_N (48 + n) else ascii_of_N (87 + n).

Definition json_escape_char (c : ascii) : string :=
  let n := N_of_ascii c in
  if (n =? 34)%N then String "\" dquote
  else if (n =? 92)%N then "\\"
  else if (n =? 8)%N then "\b"
  else if (n =? 12)%N then "\f"
  else if (n =? 10)%N then "\n"
  else if (n =? 13)%N then "\r"
  else if (n =? 9)%N then "\t"
  else if (n <? 32)%N then
    "\u00" ++ String (hex_digit (n / 16)) (String (hex_digit (n mod 16)) EmptyString)
  else String c EmptyString.

Fixpoint json_escape (s : string) : string :=
  match s with
  | EmptyString => EmptyString
  | String c rest => json_escape_char c ++ json_escape rest
  end.

Definition json_dumps (filename text : string) : string :=
  "{" ++ dquote ++ "filename" ++ dquote ++ ": "
      ++ dquote ++ json_escape filename ++ dquote ++ ", "
      ++ dquote ++ "text" ++ dquote ++ ": "
      ++ dquote ++ json_escape text ++ dquote ++ "}".

(** ** A reference integer reader and line parser

    [int] and the line parser are parameters of the model.  For running
    it, here are the integer reader on plain decimal literals and the
    JSON line parser on the lines [json.dumps] writes for a flat object
    of strings (the shape of a [jsonl] annotation). *)

Fixpoint digits_value (s : string) (acc : Z) : option Z :=
  match s with
  | EmptyString => Some acc
  | String c rest =>
      let n := N_of_ascii c in
      if in_range 48 57 n then digits_value rest (10 * acc + Z.of_N n - 48)
      else None
  end.

Definition int_decimal (s : string) : option Z :=
  match s with
  | EmptyString => None
  | String c rest =>
      if Ascii.eqb c "-" then
        match rest with
        | EmptyString => None
        | _ => Z.opp <$> digits_value rest 0
        end
      else digits_value s 0
  end.

Definition hex_value (c : ascii) : option N :=
  let n := N_of_ascii c in
  if in_range 48 57 n then Some (n - 48)%N
  else if in_range 97 102 n then Some (n - 87)%N
  else None.

(** The characters of a JSON string up to its closing quote, unescaped,
    and what follows the quote. *)
Fixpoint read_json_string (s : string) : option (string * string) :=
  match s with
  | EmptyString => None
  | String c rest =>
      let n := N_of_ascii c in
      if (n =? 34)%N then Some (EmptyString, rest)
      else if (n =? 92)%N then
        match rest with
        | String e rest' =>
            let unescaped (d : N) :=
              match read_json_string rest' with
              | Some (t, r) => Some (String (ascii_of_N d) t, r)
              | None => None
              end in
            let m := N_of_ascii e in
            if (m =? 34)%N then unescaped 34%N
            else if (m =? 92)%N then unescaped 92%N
            else if (m =? 98)%N then unescaped 8%N
            else if (m =? 102)%N then unescaped 12%N
            else if (m =? 110)%N then unescaped 10%N
            else if (m =? 114)%N then unescaped 13%N
            else if (m =? 116)%N then unescaped 9%N
            else if (m =? 117)%N then
              match rest' with
              | String "0" (String "0" (String h (String l rest''))) =>
                  match hex_value h, hex_value l, read_json_string rest'' with
                  | Some a, Some b, Some (t, r) =>
                      if (16 * a + b <? 128)%N
                      then Some (String (ascii_of_N (16 * a + b)) t, r)
                      else None
                  | _, _, _ => None
                  end
              | _ => None
              end
            else None
        | EmptyString => None
        end
      else if (n <? 32)%N then None
      else match read_json_string rest with
           | Some (t, r) => Some (String c t, r)
           | None => None
           end
  end.

(** [s] without its prefix [p], when it has it. *)
Fixpoint expect (p s : string) : option string :=
  match p, s with
  | EmptyString, _ => Some s
  | String c p', String d s' => if Ascii.eqb c d then expect p' s' else None
  | String _ _, EmptyString => None
  end.

(** The members of a flat object, after its opening brace. *)
Fixpoint read_members (fuel : nat) (s : string) : option (list (string * string)) :=
  match fuel with
  | O => None
  | S fuel' =>
      s1 ← expect dquote s;
      '(k, s2) ← read_json_string s1;
      s3 ← expect (": " ++ dquote) s2;
      '(v, s4) ← read_json_string s3;
      match expect "}" s4 with
      | Some EmptyString => Some [(k, v)]
      | Some _ => None
      | None =>
          s5 ← expect ", " s4;
          rest ← read_members fuel' s5;
          Some ((k, v) :: rest)
      end
  end.

Definition json_loads (s : string) : result (gmap string string) :=
  match expect "{" s ≫= read_members (String.length s) with
  | Some kvs => OK (list_to_map (reverse kvs))
  | None => Raise ParserError
  end.

(** [LineJsonParser(keys).__call__]: every declared key must be in the
    object; the result holds the declared keys. *)
Fixpoint select_keys (ks : list string) (obj info : gmap string string)
  : result (gmap string string) :=
  match ks with
  | [] => OK info
  | key :: rest =>
      match obj !! key with
      | None => Raise ParserError
      | Some v => select_keys rest obj (<[key := v]> info)
      end
  end.

Definition line_json_parser (ks : list string) (in_str : string)
  : result (gmap string string) :=
  match json_loads in_str with
  | OK obj => select_keys ks obj ∅
  | Raise e => Raise e
  end.

(** ** The objects *)

(** [parser_cfg], a dict with the entries [type] and [keys]. *)
Record ParserCfg : Type := {
  cfg_type : string;
  cfg_keys : list string }.

(** The default [dict(type='LineJsonParser', keys=['filename', 'text'])]. *)
Definition default_parser_cfg : ParserCfg :=
  {| cfg_type := "LineJsonParser"; cfg_keys := ["filename"; "text"] |}.

(** The line parser: its declared [keys] and its [__call__], from a raw
    line to a mapping, which may raise. *)
Record LineParser : Type := {
  keys : list string;
  call : string -> result (gmap string string) }.

(** The dataset object after [__init__]; [env] is the one attribute that
    [load_data_list] sets when it is missing ([hasattr(self, 'env')]). *)
Record RecogLMDBDataset : Type := {
  parser : LineParser;
  ann_file : string;
  data_prefix : string;         (* data_prefix['img_path'] *)
  deprecated_format : bool;
  total_number : Z;
  label_only : bool;
  env : option Env }.

(** One normalised annotation, [{'img_path': ..., 'instances': [{'text': ...}]}]. *)
Record Instance : Type := { text : string }.

Record DataInfo : Type := {
  img_path : string;
  instances : list Instance }.

(** The state [load_data_list] runs in: the object and the log. *)
Record State : Type := {
  self : RecogLMDBDataset;
  io : list event }.

#[global] Instance state_logger : Logger State :=
  fun ev st => {| self := self st; io := (io st ++ [ev])%list |}.

(** [self.env = e] *)
Definition with_env (e : Env) (o : RecogLMDBDataset) : RecogLMDBDataset :=
  {| parser := parser o; ann_file := ann_file o;
     data_prefix := data_prefix o;
     deprecated_format := deprecated_format o;
     total_number := total_number o;
     label_only := label_only o; env := Some e |}.

Definition set_env (e : Env) : M State unit :=
  fun st => (OK tt, {| self := with_env e (self st); io := io st |}).

Definition get_self : M State RecogLMDBDataset := fun st => (OK (self st), st).

(** [range(n)] *)
Definition range (n : Z) : list Z := map Z.of_nat (seq 0 (Z.to_nat n)).

(** [for i in indices: data_list.append(body(i))], leaving at the first
    exception. *)
Fixpoint for_each {S A} (body : Z -> M S A) (indices : list Z) (data_list : list A)
  : M S (list A) :=
  match indices with
  | [] => ret data_list
  | i :: rest =>
      r <- body i ;;
      for_each body rest (data_list ++ [r])%list
  end.

Section RecogLMDB.

(** The builtin [int] on a [str]; [None] is its [ValueError]. *)
Variable int : string -> option Z.

(** [LineJsonParser(keys).__call__], the pluggable line parser. *)
Variable LineJsonParser : list string -> string -> result (gmap string string).

Definition to_int {S} (s : string) : M S Z :=
  match int s with
  | Some n => ret n
  | None => raise ValueError_int
  end.

(** Modelled from the spec: [TASK_UTILS.build(parser_cfg)], the registry
    and the constructor of the parser class, which this module calls but
    does not define.  The specification: only the two-field variant is
    supported; any parser declaring more or fewer keys is a
    configuration error rejected at construction time. *)
Definition TASK_UTILS_build (parser_cfg : ParserCfg) : result LineParser :=
  if (length (cfg_keys parser_cfg) =? 2)%nat then
    OK {| keys := cfg_keys parser_cfg;
          call := LineJsonParser (cfg_keys parser_cfg) |}
  else Raise ConfigError_parser_keys.

(** [_get_env]: [lmdb.open(self.ann_file, readonly=True, ...)], in the
    directory tree [fs]. *)
Definition _get_env {S} `{Logger S} (fs : gmap string Env) (ann_file : string)
  : M S Env :=
  emit (Open ann_file) ;;;
  match fs !! ann_file with
  | Some e => ret e
  | None => raise lmdb_Error
  end.

(** [txn.get(key)] *)
Definition txn_get {S} `{Logger S} (txn : Env) (key : string)
  : M S (option string) :=
  emit (Get key) ;;; ret (txn !! key).

(** [int(txn.get(key).decode('utf-8'))] *)
Definition read_count {S} `{Logger S} (txn : Env) (key : string) : M S Z :=
  v <- txn_get txn key ;;
  s <- lift (decode v) ;;
  to_int s.

(** [__init__], up to the call of the base class constructor. *)
Definition __init__ (fs : gmap string Env) (ann_file : string)
    (parser_cfg : ParserCfg) (data_prefix : string)
  : M (list event) RecogLMDBDataset :=
  if negb (String.eqb (cfg_type parser_cfg) "LineJsonParser") then
    raise ValueError_unsupported_parser
  else
    parser <- lift (TASK_UTILS_build parser_cfg) ;;
    txn <- _get_env fs ann_file ;;
    count <- try_except_AttributeError
               (n <- read_count txn "num-samples" ;; ret (n, false))
               (emit Warn ;;;
                n <- read_count txn "total_number" ;; ret (n, true)) ;;
    probe <- txn_get txn (image_key 1) ;;
    ret {| parser := parser; ann_file := ann_file;
           data_prefix := data_prefix;
           deprecated_format := snd count;
           total_number := fst count;
           label_only := match probe with None => true | Some _ => false end;
           env := None |}.

(** [parse_data_info] *)
Definition subscript {S} (e : exn) {A} (o : option A) : M S A :=
  match o with
  | Some a => ret a
  | None => raise e
  end.

Definition parse_data_info {S} (self : RecogLMDBDataset) (raw_anno_info : string)
  : M S DataInfo :=
  parsed_anno <- lift (call (parser self) raw_anno_info) ;;
  key0 <- subscript IndexError (keys (parser self) !! 0%nat) ;;
  path <- subscript KeyError (parsed_anno !! key0) ;;
  key1 <- subscript IndexError (keys (parser self) !! 1%nat) ;;
  txt <- subscript KeyError (parsed_anno !! key1) ;;
  ret {| img_path := osp_join (data_prefix self) path;
         instances := [ {| text := txt |} ] |}.

(** The body of the loop of [load_data_list] at index [i]. *)
Definition read_line {S} `{Logger S} (self : RecogLMDBDataset) (txn : Env) (i : Z)
  : M S string :=
  if deprecated_format self then
    v <- txn_get txn (str i) ;;
    line <- lift (decode v) ;;
    match split " " (strip "/n" line) with
    | [filename; text] => ret (json_dumps filename text)
    | _ => raise ValueError_unpack
    end
  else
    let i := i + 1 in
    if label_only self then
      v <- txn_get txn (label_key i) ;;
      lift (decode v)
    else
      let img_key := image_key i in
      v <- txn_get txn (label_key i) ;;
      text <- lift (decode v) ;;
      ret (json_dumps img_key text).

Definition load_one {S} `{Logger S} (self : RecogLMDBDataset) (txn : Env) (i : Z)
  : M S DataInfo :=
  line <- read_line self txn i ;;
  parse_data_info self line.

(** [load_data_list] *)
Definition load_data_list (fs : gmap string Env) : M State (list DataInfo) :=
  self0 <- get_self ;;
  txn <- match env self0 with
         | None => e <- _get_env fs (ann_file self0) ;; set_env e ;;; ret e
         | Some e => ret e
         end ;;
  self <- get_self ;;
  for_each (load_one self txn) (range (total_number self)) [].

End RecogLMDB.

(** ** Sample stores *)

(** A modern store with two records and the first image. *)
Definition store_modern : Env :=
  {[ "num-samples" := "2"; "image-000000001" := "PNG";
     "label-000000001" := "hello"; "label-000000002" := "world" ]}.

Definition labels_modern (i : Z) : string :=
  if i =? 0 then "hello" else "world".

(** The deprecated store of the specification's scenario. *)
Definition store_deprecated : Env :=
  {[ "total_number" := "1"; "0" := "img1.png cat" ]}.

(** The same with an image key added. *)
Definition store_deprecated_image : Env :=
  <[ "image-000000001" := "PNG" ]> store_deprecated.

(** A deprecated store whose record has a run of two spaces. *)
Definition store_two_spaces : Env :=
  {[ "total_number" := "1"; "0" := "img1.png  cat" ]}.

(** A deprecated store whose record has a tab and a space. *)
Definition tab : ascii := Eval cbv in ascii_of_N 9.

Definition line_tab_space : string := "a" ++ String tab "b c".

Definition store_tab_space : Env :=
  {[ "total_number" := "1"; "0" := line_tab_space ]}.

(** A modern store with labels only, whose label is a JSON line. *)
Definition store_label_only : Env :=
  {[ "num-samples" := "1"; "label-000000001" := json_dumps "a.png" "hi" ]}.

(** A modern store that declares two records and holds one. *)
Definition store_truncated : Env :=
  {[ "num-samples" := "2"; "image-000000001" := "PNG";
     "label-000000001" := "hello" ]}.

(** A deprecated store whose second record has a single field. *)
Definition store_one_field : Env :=
  {[ "total_number" := "2"; "0" := "img1.png cat"; "1" := "img2.png" ]}.

(** A store without a count key. *)
Definition store_no_count : Env := {[ "0" := "img1.png cat" ]}.

(** ** The constructor followed by [load_data_list] *)

Definition probe_and_decode (int : string -> option Z)
    (LineJsonParser : list string -> string -> result (gmap string string))
    (fs : gmap string Env) (ann : string) (parser_cfg : ParserCfg) (pre : string)
  : result (list DataInfo) :=
  match __init__ int LineJsonParser fs ann parser_cfg pre [] with
  | (OK o, tr) => fst (load_data_list fs {| self := o; io := tr |})
  | (Raise e, _) => Raise e
  end.

(** ** The deprecated branch in the specification's words

    The specification has the deprecated branch strip a trailing
    newline and split on the first whitespace run into the file name
    and the text, and calls fields what whitespace separates.  These
    definitions follow its words, for comparison with [read_line]. *)

Definition is_whitespace (c : ascii) : bool :=
  let n := N_of_ascii c in (n =? 32)%N || in_range 9 13 n.

Fixpoint skip_whitespace (s : string) : string :=
  match s with
  | EmptyString => EmptyString
  | String c rest => if is_whitespace c then skip_whitespace rest else s
  end.

Fixpoint spec_split_first_whitespace_run (s : string) : option (string * string) :=
  match s with
  | EmptyString => None
  | String c rest =>
      if is_whitespace c then Some (EmptyString, skip_whitespace rest)
      else match spec_split_first_whitespace_run rest with
           | Some (f, t) => Some (String c f, t)
           | None => None
           end
  end.

Definition spec_deprecated_record (pre line : string) : option DataInfo :=
  match spec_split_first_whitespace_run
          (rstrip (String (ascii_of_N 10) EmptyString) line) with
  | Some (f, t) => Some {| img_path := osp_join pre f;
                           instances := [ {| text := t |} ] |}
  | None => None
  end.

(** The fields that whitespace separates, none of them empty. *)
Fixpoint spec_whitespace_fields (s : string) (field : string) : list string :=
  let close (fields : list string) :=
    match field with
    | EmptyString => fields
    | _ => String.rev field :: fields
    end in
  match s with
  | EmptyString => close []
  | String c rest =>
      if is_whitespace c then close (spec_whitespace_fields rest EmptyString)
      else spec_whitespace_fields rest (String c field)
  end.

(** ** Reading the model *)

Local Open Scope list_scope.
Local Arguments String.append !s1 s2 : simpl nomatch.

(** The environment [load_data_list] reads: the one the object holds,
    or else the one at [ann_file]. *)
Definition store_of (fs : gmap string Env) (st : State) : option Env :=
  match env (self st) with
  | Some e => Some e
  | None => fs !! ann_file (self st)
  end.

(** The result of a computation that does not depend on the state it runs in. *)
Definition eval {A} (m : M (list event) A) : result A := fst (m []).

(** The key [load_data_list] fetches at index [i]. *)
Definition record_key (self : RecogLMDBDataset) (i : Z) : string :=
  if deprecated_format self then str i else label_key (i + 1).

(** The loop without its state: the results collected, and the indices
    whose body ran. *)
Fixpoint collect {A} (f : Z -> result A) (indices : list Z) (data_list : list A)
  : result (list A) :=
  match indices with
  | [] => OK data_list
  | i :: rest =>
      match f i with
      | OK r => collect f rest (data_list ++ [r])%list
      | Raise e => Raise e
      end
  end.

Fixpoint reached {A} (f : Z -> result A) (indices : list Z) : list Z :=
  match indices with
  | [] => []
  | i :: rest =>
      i :: match f i with
           | OK _ => reached f rest
           | Raise _ => []
           end
  end.

(** The specification's names (its section 7) for the exceptions that
    leave the constructor and [load_data_list]. *)
Inductive SpecError : Type :=
| ConfigurationError | StoreAccessError | FormatError | PropagatedError.

Definition construction_error (e : exn) : SpecError :=
  match e with
  | ValueError_unsupported_parser | ConfigError_parser_keys => ConfigurationError
  | lmdb_Error => StoreAccessError
  | AttributeError_NoneType_decode | UnicodeDecodeError | ValueError_int => FormatError
  | _ => PropagatedError
  end.

Definition decoding_error (e : exn) : SpecError :=
  match e with
  | lmdb_Error | AttributeError_NoneType_decode => StoreAccessError
  | ValueError_unpack => FormatError
  | _ => PropagatedError
  end.

(** ** Definitions for the statements *)

(** What the probe of the first image key sets [label_only] to. *)
Definition probe_label_only (store : Env) : bool :=
  match store !! image_key 1 with
  | None => true
  | Some _ => false
  end.

(** A count key that is present, well-formed UTF-8 and an integer
    literal. *)
Definition count_at (int : string -> option Z) (store : Env) (key : string)
  : option Z :=
  match store !! key with
  | None => None
  | Some b =>
      match decode_utf8 b with
      | OK s => int s
      | Raise _ => None
      end
  end.

(** The parser object that [TASK_UTILS_build] returns. *)
Definition built
    (LineJsonParser : list string -> string -> result (gmap string string))
    (parser_cfg : ParserCfg) : LineParser :=
  {| keys := cfg_keys parser_cfg;
     call := LineJsonParser (cfg_keys parser_cfg) |}.

(** The number of occurrences of a character. *)
Fixpoint count_char (c : ascii) (s : string) : nat :=
  match s with
  | EmptyString => 0
  | String d rest => (if Ascii.eqb d c then 1 else 0) + count_char c rest
  end.

(** The first and the last character of [s] are outside [chars]. *)
Definition first_outside (chars s : string) : bool :=
  match s with
  | EmptyString => true
  | String c _ => negb (mem_char c chars)
  end.

Fixpoint last_outside (chars s : string) : bool :=
  match s with
  | EmptyString => true
  | String c EmptyString => negb (mem_char c chars)
  | String _ rest => last_outside chars rest
  end.

Definition plain_ends (chars s : string) : bool :=
  first_outside chars s && last_outside chars s.

(** The characters the deprecated branch strips, and the newline. *)
Definition slash_n_newline : string :=
  String "/" (String "n" (String (ascii_of_N 10) EmptyString)).

(** A line parser that undoes [json.dumps] on a [filename] and [text]
    pair, as a JSON parser with these two keys does. *)
Definition inverts_dumps (p : string -> result (gmap string string)) : Prop :=
  forall f t, exists parsed,
    p (json_dumps f t) = OK parsed /\
    parsed !! "filename" = Some f /\ parsed !! "text" = Some t.

(** The object the constructor makes of the deprecated store with a
    single field in its second record. *)
Definition self_one_field : RecogLMDBDataset :=
  {| parser := built line_json_parser default_parser_cfg;
     ann_file := "db"; data_prefix := "prefix"; deprecated_format := true;
     total_number := 2; label_only := true; env := None |}.

(** A configuration with three keys, and one of another parser type. *)
Definition three_keys_cfg : ParserCfg :=
  {| cfg_type := "LineJsonParser"; cfg_keys := ["filename"; "text"; "lang"] |}.

Definition line_str_cfg : ParserCfg :=
  {| cfg_type := "LineStrParser"; cfg_keys := ["filename"; "text"] |}.

(** The object the constructor makes of the truncated store. *)
Definition self_truncated : RecogLMDBDataset :=
  {| parser := built line_json_parser default_parser_cfg;
     ann_file := "db"; data_prefix := "prefix"; deprecated_format := false;
     total_number := 2; label_only := false; env := None |}.

(** ** Definitions for further properties *)

(** The object the constructor returns for a store, given the format it
    found and the count it read. *)
Definition constructed
    (LineJsonParser : list string -> string -> result (gmap string string))
    (ann : string) (parser_cfg : ParserCfg) (pre : string) (store : Env)
    (deprecated : bool) (n : Z) : RecogLMDBDataset :=
  {| parser := built LineJsonParser parser_cfg; ann_file := ann;
     data_prefix := pre; deprecated_format := deprecated;
     total_number := n; label_only := probe_label_only store; env := None |}.

(** The number of warnings in a log. *)
Fixpoint warnings (tr : list event) : nat :=
  match tr with
  | [] => 0
  | Warn :: rest => S (warnings rest)
  | _ :: rest => warnings rest
  end.


(** The index that a string of decimal digits writes. *)
Definition read_index (s : string) : option Z :=
  match NilEmpty.uint_of_string s with
  | Some d => Some (Z.of_uint d)
  | None => None
  end.

(** A store whose [num-samples] is no integer, beside a deprecated count. *)
Definition store_malformed_count : Env :=
  {[ "num-samples" := "two"; "total_number" := "1"; "0" := "img1.png cat" ]}.

(** A store with both count keys. *)
Definition store_both_counts : Env :=
  {[ "num-samples" := "1"; "total_number" := "5";
     "label-000000001" := json_dumps "a.png" "hi" ]}.

(** A store with a negative count. *)
Definition store_negative_count : Env := {[ "num-samples" := "-3" ]}.

(** A modern store whose label is not UTF-8. *)
Definition store_bad_utf8 : Env :=
  {[ "num-samples" := "1"; "image-000000001" := "PNG";
     "label-000000001" := String (ascii_of_N 255) EmptyString ]}.

(** A modern store with labels only whose label is no JSON line. *)
Definition store_bad_json : Env :=
  {[ "num-samples" := "1"; "label-000000001" := "not json" ]}.

(** A deprecated store whose record begins with a slash and ends with an
    [n] and a newline. *)
Definition line_slash_newline : string :=
  "/data/img1.png can" ++ String (ascii_of_N 10) EmptyString.

Definition store_slash_newline : Env :=
  {[ "total_number" := "1"; "0" := line_slash_newline ]}.

(** ** The loop *)

Section Loop.
Context {A : Type}.
Implicit Types (f : Z -> result A) (indices : list Z) (acc : list A).

Lemma collect_app f l1 l2 acc :
  collect f (l1 ++ l2) acc =
  match collect f l1 acc with
  | OK acc' => collect f l2 acc'
  | Raise e => Raise e
  end.
Proof.
  revert acc. induction l1 as [|i l1 IH]; intros acc; simpl; [done|].
  destruct (f i); [apply IH | done].
Qed.

(** When every body succeeds the loop returns one result an index, in
    the order of the indices. *)
Lemma collect_all_OK f (g : Z -> A) indices acc :
  (forall i, i ∈ indices -> f i = OK (g i)) ->
  collect f indices acc = OK (acc ++ map g indices).
Proof.
  revert acc. induction indices as [|i l IH]; intros acc Hall; simpl.
  - by rewrite app_nil_r.
  - rewrite Hall by set_solver. rewrite IH by set_solver.
    by rewrite <- app_assoc.
Qed.

(** The loop leaves with the exception of the first body that raises. *)
Lemma collect_first_Raise f l1 i l2 acc e :
  (forall j, j ∈ l1 -> exists r, f j = OK r) ->
  f i = Raise e ->
  collect f (l1 ++ i :: l2) acc = Raise e.
Proof.
  revert acc. induction l1 as [|j l1 IH]; intros acc Hall Hi; simpl.
  - by rewrite Hi.
  - destruct (Hall j) as [r ->]; [set_solver|].
    apply IH; [|done]. intros k Hk. apply Hall. set_solver.
Qed.

Lemma collect_ext f g indices acc :
  (forall i, i ∈ indices -> f i = g i) ->
  collect f indices acc = collect g indices acc.
Proof.
  revert acc. induction indices as [|i rest IH]; intros acc Hfg; simpl; [done|].
  rewrite <- Hfg by left. destruct (f i); [|done].
  apply IH. intros j Hj. apply Hfg. by right.
Qed.

(** All or nothing: a returned list is complete. *)
Lemma collect_OK_length f indices acc l :
  collect f indices acc = OK l ->
  length l = (length acc + length indices)%nat.
Proof.
  revert acc. induction indices as [|i rest IH]; intros acc; simpl.
  - intros [= <-]. lia.
  - destruct (f i) as [r|e]; [|done]. intros H%IH.
    rewrite length_app in H. simpl in H. lia.
Qed.

Lemma collect_OK_inv f indices acc l :
  collect f indices acc = OK l ->
  forall i, i ∈ indices -> exists r, f i = OK r.
Proof.
  revert acc. induction indices as [|j rest IH]; intros acc; simpl.
  - intros _ i Hi. by apply elem_of_nil in Hi.
  - destruct (f j) as [r|e] eqn:Hj; [|done]. intros H i Hi.
    apply elem_of_cons in Hi as [->|Hi]; eauto.
Qed.

Lemma reached_subseteq f indices : reached f indices ⊆ indices.
Proof.
  induction indices as [|i rest IH]; simpl; [done|].
  destruct (f i); [by apply list_subseteq_skip|].
  intros k Hk. apply list_elem_of_singleton in Hk as ->. left.
Qed.

(** [for_each] in the state of [load_data_list], for a body that logs
    one event and is otherwise independent of the state. *)
Lemma for_each_State (body : Z -> M State A) f (ev : Z -> event) :
  (forall i st, body i st = (f i, log_event (ev i) st)) ->
  forall indices acc st,
    for_each body indices acc st =
    (collect f indices acc,
     {| self := self st; io := io st ++ map ev (reached f indices) |}).
Proof.
  intros Hbody. induction indices as [|i rest IH]; intros acc st; simpl.
  - unfold ret. rewrite app_nil_r. by destruct st.
  - unfold bind. rewrite Hbody. destruct (f i) as [r|e].
    + rewrite IH. simpl. f_equal. f_equal.
      unfold log_event, state_logger. simpl. by rewrite <- app_assoc.
    + done.
Qed.
End Loop.

Lemma elem_of_range n i : i ∈ range n <-> 0 <= i < n.
Proof.
  unfold range. rewrite list_elem_of_fmap. split.
  - intros (k & -> & Hk%elem_of_seq). lia.
  - intros Hi. exists (Z.to_nat i). split; [lia|]. apply elem_of_seq. lia.
Qed.

Lemma length_range n : length (range n) = Z.to_nat n.
Proof. unfold range. by rewrite length_map, length_seq. Qed.

Lemma range_split n i :
  0 <= i < n -> exists rest, range n = range i ++ i :: rest.
Proof.
  intros Hi. unfold range.
  replace (Z.to_nat n) with (Z.to_nat i + S (Z.to_nat (n - i - 1)))%nat by lia.
  rewrite seq_app, map_app. simpl. rewrite Z2Nat.id by lia. eauto.
Qed.

(** ** The loop body and the two methods, step by step *)

Ltac run_M :=
  unfold bind, ret, raise, lift, emit, subscript, txn_get, get_self, set_env;
  simpl.

Lemma parse_data_info_run {S} self raw (s : S) :
  parse_data_info self raw s = (eval (parse_data_info self raw), s).
Proof.
  unfold parse_data_info, eval. run_M.
  destruct (call (parser self) raw) as [parsed|e]; simpl; [|done].
  destruct (keys (parser self) !! 0%nat) as [k0|]; simpl; [|done].
  destruct (parsed !! k0); simpl; [|done].
  destruct (keys (parser self) !! 1%nat) as [k1|]; simpl; [|done].
  by destruct (parsed !! k1).
Qed.

Lemma read_line_run {S} `{Logger S} self txn i (s : S) :
  read_line self txn i s =
  (eval (read_line self txn i), log_event (Get (record_key self i)) s).
Proof.
  unfold read_line, record_key, eval.
  destruct (deprecated_format self); [|destruct (label_only self)]; run_M.
  - destruct (decode (txn !! str i)) as [line|e]; simpl; [|done].
    by destruct (split " " (strip "/n" line)) as [|? [|? [|? ?]]].
  - by destruct (decode (txn !! label_key (i + 1))).
  - by destruct (decode (txn !! label_key (i + 1))).
Qed.

(** The result of the body in terms of the line read and the parser. *)
Lemma eval_load_one self txn i :
  eval (load_one self txn i) =
  match eval (read_line self txn i) with
  | OK line => eval (parse_data_info self line)
  | Raise e => Raise e
  end.
Proof.
  unfold load_one, eval at 1, bind. rewrite read_line_run.
  destruct (eval (read_line self txn i)); [|done].
  by rewrite parse_data_info_run.
Qed.

Lemma load_one_run {S} `{Logger S} self txn i (s : S) :
  load_one self txn i s =
  (eval (load_one self txn i), log_event (Get (record_key self i)) s).
Proof.
  rewrite eval_load_one. unfold load_one, bind. rewrite read_line_run.
  destruct (eval (read_line self txn i)); [|done].
  by rewrite parse_data_info_run.
Qed.

(** The environment attribute is not read by the loop body. *)
Lemma load_one_with_env e self txn i :
  eval (load_one (with_env e self) txn i) = eval (load_one self txn i).
Proof. reflexivity. Qed.

Lemma record_key_with_env e self i :
  record_key (with_env e self) i = record_key self i.
Proof. reflexivity. Qed.

(** [load_data_list] on an object that holds its environment already ... *)
Lemma load_data_list_env fs st txn :
  env (self st) = Some txn ->
  load_data_list fs st =
  (collect (fun i => eval (load_one (self st) txn i))
           (range (total_number (self st))) [],
   {| self := self st;
      io := io st ++ map (fun i => Get (record_key (self st) i))
              (reached (fun i => eval (load_one (self st) txn i))
                       (range (total_number (self st)))) |}).
Proof.
  intros Henv. unfold load_data_list. run_M. rewrite Henv.
  by rewrite (for_each_State _ _ _ (load_one_run (self st) txn)).
Qed.

(** ... and on one that does not: it opens [ann_file] and keeps it. *)
Lemma load_data_list_no_env fs st :
  env (self st) = None ->
  load_data_list fs st =
  match fs !! ann_file (self st) with
  | None => (Raise lmdb_Error,
             {| self := self st; io := io st ++ [Open (ann_file (self st))] |})
  | Some txn =>
      (collect (fun i => eval (load_one (self st) txn i))
               (range (total_number (self st))) [],
       {| self := with_env txn (self st);
          io := io st ++ Open (ann_file (self st)) ::
                  map (fun i => Get (record_key (self st) i))
                    (reached (fun i => eval (load_one (self st) txn i))
                             (range (total_number (self st)))) |})
  end.
Proof.
  intros Henv. unfold load_data_list, _get_env. run_M. rewrite Henv.
  unfold log_event, state_logger. simpl.
  destruct (fs !! ann_file (self st)) as [txn|]; simpl; [|done].
  rewrite (for_each_State _ _ _ (load_one_run (with_env txn (self st)) txn)).
  simpl. by rewrite <- app_assoc.
Qed.

(** ** The constructor *)

Example image_key_1 : image_key 1 = "image-000000001".
Proof. reflexivity. Qed.

Example label_key_12 : label_key 12 = "label-000000012".
Proof. reflexivity. Qed.

Section Construction.
Variable int : string -> option Z.
Variable LineJsonParser : list string -> string -> result (gmap string string).

(** The constructor stops at the parser configuration before it
    touches the store. *)
Lemma init_unsupported fs ann parser_cfg pre io0 :
  cfg_type parser_cfg ≠ "LineJsonParser" \/ length (cfg_keys parser_cfg) ≠ 2%nat ->
  __init__ int LineJsonParser fs ann parser_cfg pre io0 =
  (Raise (if String.eqb (cfg_type parser_cfg) "LineJsonParser"
          then ConfigError_parser_keys else ValueError_unsupported_parser),
   io0).
Proof.
  intros Hcfg. unfold __init__, TASK_UTILS_build.
  destruct (String.eqb_spec (cfg_type parser_cfg) "LineJsonParser") as [Ht|Ht];
    simpl; [|done].
  destruct Hcfg as [Hcfg|Hcfg]; [done|].
  apply Nat.eqb_neq in Hcfg. by rewrite Hcfg.
Qed.

Section Supported.
Variables (fs : gmap string Env) (ann : string) (parser_cfg : ParserCfg)
          (pre : string) (store : Env).
Hypothesis Htype : cfg_type parser_cfg = "LineJsonParser".
Hypothesis Hkeys : length (cfg_keys parser_cfg) = 2%nat.
Hypothesis Hopen : fs !! ann = Some store.

Let init := __init__ int LineJsonParser fs ann parser_cfg pre.

Lemma init_modern n io0 :
  count_at int store "num-samples" = Some n ->
  init io0 =
  (OK {| parser := built LineJsonParser parser_cfg; ann_file := ann;
         data_prefix := pre; deprecated_format := false;
         total_number := n; label_only := probe_label_only store;
         env := None |},
   io0 ++ [Open ann; Get "num-samples"; Get (image_key 1)]).
Proof.
  unfold count_at, init, __init__, TASK_UTILS_build, _get_env,
    read_count, try_except_AttributeError, to_int, probe_label_only.
  rewrite Htype, Hkeys. run_M. rewrite Hopen. simpl.
  unfold log_event, list_logger, decode.
  destruct (store !! "num-samples") as [b|]; [|done].
  destruct (decode_utf8 b) as [s|]; [|done]. intros ->. simpl.
  by rewrite <- !app_assoc.
Qed.

Lemma init_deprecated n io0 :
  store !! "num-samples" = None ->
  count_at int store "total_number" = Some n ->
  init io0 =
  (OK {| parser := built LineJsonParser parser_cfg; ann_file := ann;
         data_prefix := pre; deprecated_format := true;
         total_number := n; label_only := probe_label_only store;
         env := None |},
   io0 ++ [Open ann; Get "num-samples"; Warn; Get "total_number";
           Get (image_key 1)]).
Proof.
  intros Hns. unfold count_at, init, __init__, TASK_UTILS_build, _get_env,
    read_count, try_except_AttributeError, to_int, probe_label_only.
  rewrite Htype, Hkeys. run_M. rewrite Hopen. simpl.
  unfold log_event, list_logger, decode. rewrite Hns. simpl.
  destruct (store !! "total_number") as [b|]; [|done].
  destruct (decode_utf8 b) as [s|]; [|done]. intros ->. simpl.
  by rewrite <- !app_assoc.
Qed.

Lemma init_no_count io0 :
  count_at int store "num-samples" = None ->
  count_at int store "total_number" = None ->
  exists e tr,
    init io0 = (Raise e, tr) /\
    (e = AttributeError_NoneType_decode \/ e = UnicodeDecodeError \/
     e = ValueError_int).
Proof.
  unfold count_at, init, __init__, TASK_UTILS_build, _get_env,
    read_count, try_except_AttributeError, to_int.
  rewrite Htype, Hkeys. run_M. rewrite Hopen. simpl.
  unfold log_event, list_logger, decode, decode_utf8.
  destruct (store !! "num-samples") as [b|]; simpl.
  - destruct (utf8_run U_start b); simpl; [|eauto 6].
    intros ->. simpl. eauto 6.
  - intros _. destruct (store !! "total_number") as [b|]; simpl; [|eauto 6].
    destruct (utf8_run U_start b); simpl; [|eauto 6].
    intros ->. simpl. eauto 6.
Qed.

(** Without [num-samples], the exception depends on the value at
    [total_number] alone. *)
Lemma init_deprecated_no_count io0 :
  store !! "num-samples" = None ->
  count_at int store "total_number" = None ->
  exists tr,
    init io0 =
    (Raise match decode (store !! "total_number") with
           | Raise e => e
           | OK _ => ValueError_int
           end, tr).
Proof.
  intros Hns. unfold count_at, init, __init__, TASK_UTILS_build, _get_env,
    read_count, try_except_AttributeError, to_int.
  rewrite Htype, Hkeys. run_M. rewrite Hopen. simpl.
  unfold log_event, list_logger, decode, decode_utf8. rewrite Hns. simpl.
  destruct (store !! "total_number") as [b|]; simpl; [|eauto].
  destruct (utf8_run U_start b); simpl; [|eauto].
  intros ->. simpl. eauto.
Qed.
End Supported.
End Construction.

(** ** [strip] and [split] *)

Lemma split_not_nil sep s : split sep s ≠ [].
Proof.
  destruct s as [|c rest]; simpl; [done|].
  destruct (Ascii.eqb c sep); [done|]. by destruct (split sep rest).
Qed.

Lemma length_split sep s : length (split sep s) = S (count_char sep s).
Proof.
  induction s as [|c rest IH]; simpl; [done|].
  destruct (Ascii.eqb c sep); simpl; [by rewrite IH|].
  destruct (split sep rest); simpl in *; lia.
Qed.

Lemma split_no_sep sep s : count_char sep s = 0%nat -> split sep s = [s].
Proof.
  induction s as [|c rest IH]; simpl; [done|].
  destruct (Ascii.eqb c sep); simpl; [done|]. intros H. by rewrite IH.
Qed.

Lemma split_app sep f t :
  count_char sep f = 0%nat ->
  split sep (f +:+ String sep t) = f :: split sep t.
Proof.
  induction f as [|c rest IH]; simpl.
  - by rewrite Ascii.eqb_refl.
  - destruct (Ascii.eqb c sep); simpl; [done|]. intros H. by rewrite IH.
Qed.

Lemma count_char_lstrip c chars s :
  mem_char c chars = false ->
  count_char c (lstrip chars s) = count_char c s.
Proof.
  intros Hc. induction s as [|d rest IH]; simpl; [done|].
  destruct (mem_char d chars) eqn:Hd; simpl; [|done].
  rewrite IH. destruct (Ascii.eqb_spec d c) as [->|]; [congruence|done].
Qed.

Lemma count_char_rstrip c chars s :
  mem_char c chars = false ->
  count_char c (rstrip chars s) = count_char c s.
Proof.
  intros Hc. induction s as [|d rest IH]; simpl; [done|].
  destruct (rstrip chars rest) as [|e r] eqn:Hr; simpl in *.
  - rewrite <- IH. destruct (mem_char d chars) eqn:Hd; simpl; [|lia].
    destruct (Ascii.eqb_spec d c) as [->|]; [congruence|done].
  - by rewrite IH.
Qed.

Lemma count_char_strip c chars s :
  mem_char c chars = false ->
  count_char c (strip chars s) = count_char c s.
Proof.
  intros Hc. unfold strip.
  by rewrite count_char_rstrip, count_char_lstrip.
Qed.

Lemma rstrip_last_outside chars s :
  last_outside chars s = true -> rstrip chars s = s.
Proof.
  induction s as [|c rest IH]; simpl; [done|].
  destruct rest as [|d rest'].
  - simpl. by intros ->%negb_true_iff.
  - intros H. rewrite IH by done. done.
Qed.

Lemma strip_plain_ends chars s :
  plain_ends chars s = true -> strip chars s = s.
Proof.
  unfold plain_ends, strip. intros [Hf Hl]%andb_true_iff.
  replace (lstrip chars s) with s.
  - by apply rstrip_last_outside.
  - destruct s as [|c rest]; simpl in *; [done|].
    by apply negb_true_iff in Hf as ->.
Qed.

(** Fewer characters to spare means fewer to strip. *)
Lemma mem_char_subset c :
  mem_char c "/n" = true -> mem_char c slash_n_newline = true.
Proof.
  unfold slash_n_newline. simpl. rewrite !orb_false_r.
  intros [->| ->]%orb_true_iff; simpl; by rewrite ?orb_true_r.
Qed.

Lemma plain_ends_slash_n s :
  plain_ends slash_n_newline s = true -> plain_ends "/n" s = true.
Proof.
  assert (Hneg : forall c, negb (mem_char c slash_n_newline) = true ->
                           negb (mem_char c "/n") = true).
  { intros c Hc. apply negb_true_iff. apply negb_true_iff in Hc.
    destruct (mem_char c "/n") eqn:E; [|done].
    apply mem_char_subset in E. congruence. }
  unfold plain_ends. intros [Hf Hl]%andb_true_iff. apply andb_true_iff. split.
  - destruct s; simpl in *; auto.
  - clear Hf. induction s as [|c rest IH]; simpl in *; [done|].
    destruct rest; auto.
Qed.

(** ** The reference parser reads what [json.dumps] writes *)

Lemma read_json_escape_char c tail :
  read_json_string (json_escape_char c +:+ tail) =
  match read_json_string tail with
  | Some (t, r) => Some (String c t, r)
  | None => None
  end.
Proof.
  destruct c as [[] [] [] [] [] [] [] []]; reflexivity.
Qed.

Lemma string_app_assoc (a b c : string) : (a +:+ b) +:+ c = a +:+ (b +:+ c).
Proof. induction a as [|x a IH]; simpl; [done|]. by rewrite IH. Qed.

Lemma read_json_escape s rest :
  read_json_string (json_escape s +:+ String dq rest) = Some (s, rest).
Proof.
  induction s as [|c s IH]; [reflexivity|].
  change (json_escape (String c s)) with (json_escape_char c +:+ json_escape s).
  by rewrite string_app_assoc, read_json_escape_char, IH.
Qed.

Lemma json_loads_dumps f t :
  json_loads (json_dumps f t) = OK (<["filename" := f]> (<["text" := t]> ∅)).
Proof.
  unfold json_loads, json_dumps. simpl.
  rewrite (read_json_escape f). simpl.
  rewrite (read_json_escape t). simpl. reflexivity.
Qed.

Lemma line_json_parser_inverts_dumps :
  inverts_dumps (line_json_parser ["filename"; "text"]).
Proof.
  intros f t. unfold line_json_parser. rewrite json_loads_dumps. simpl.
  rewrite lookup_insert_eq. rewrite lookup_insert_ne by done.
  rewrite lookup_insert_eq. eexists. split; [done|].
  split; [by rewrite lookup_insert_ne, lookup_insert_eq|by rewrite lookup_insert_eq].
Qed.

(** ** The line read at an index, and its parse *)

Lemma eval_read_line self txn i :
  eval (read_line self txn i) =
  if deprecated_format self then
    match decode (txn !! str i) with
    | OK line =>
        match split " " (strip "/n" line) with
        | [filename; text] => OK (json_dumps filename text)
        | _ => Raise ValueError_unpack
        end
    | Raise e => Raise e
    end
  else if label_only self then decode (txn !! label_key (i + 1))
  else
    match decode (txn !! label_key (i + 1)) with
    | OK text => OK (json_dumps (image_key (i + 1)) text)
    | Raise e => Raise e
    end.
Proof.
  unfold read_line, eval.
  destruct (deprecated_format self); [|destruct (label_only self)]; run_M.
  - destruct (decode (txn !! str i)) as [line|e]; simpl; [|done].
    by destruct (split " " (strip "/n" line)) as [|? [|? [|? ?]]].
  - by destruct (decode (txn !! label_key (i + 1))).
  - by destruct (decode (txn !! label_key (i + 1))).
Qed.

Lemma eval_parse_data_info self raw parsed k0 k1 path txt :
  call (parser self) raw = OK parsed ->
  keys (parser self) = [k0; k1] ->
  parsed !! k0 = Some path ->
  parsed !! k1 = Some txt ->
  eval (parse_data_info self raw) =
  OK {| img_path := osp_join (data_prefix self) path;
        instances := [ {| text := txt |} ] |}.
Proof.
  intros Hcall Hkeys H0 H1. unfold parse_data_info, eval. run_M.
  rewrite Hcall, Hkeys. simpl. by rewrite H0, H1.
Qed.

Lemma eval_parse_data_info_dumps self f t :
  keys (parser self) = ["filename"; "text"] ->
  inverts_dumps (call (parser self)) ->
  eval (parse_data_info self (json_dumps f t)) =
  OK {| img_path := osp_join (data_prefix self) f;
        instances := [ {| text := t |} ] |}.
Proof.
  intros Hkeys Hinv. destruct (Hinv f t) as (parsed & Hcall & Hf & Ht).
  by apply (eval_parse_data_info _ _ parsed "filename" "text").
Qed.

(** ** Modern stores with images *)

Section Modern.
Variable int : string -> option Z.
Variable LineJsonParser : list string -> string -> result (gmap string string).

(** C1.  A store whose key [num-samples] reads as the integer [N] and
    whose first image key is present is taken for a modern store with
    images, and [load_data_list] returns [N] records in the order of
    the indices: record [i] has the path joining the prefix and the key
    [image-%09d] of [i + 1], and the one instance whose text is the
    decoded value at [label-%09d] of [i + 1].  The line parser is the
    default one, with the keys [filename] and [text], and reads back
    what [json.dumps] wrote. *)
Theorem modern_store_records
    (fs : gmap string Env) (ann pre : string) (store : Env) (N : Z)
    (labels : Z -> string) (io0 : list event) :
  fs !! ann = Some store ->
  count_at int store "num-samples" = Some N ->
  0 <= N ->
  store !! image_key 1 ≠ None ->
  (forall i, 0 <= i < N ->
     exists b, store !! label_key (i + 1) = Some b /\
               decode_utf8 b = OK (labels i)) ->
  inverts_dumps (LineJsonParser ["filename"; "text"]) ->
  exists self tr st',
    __init__ int LineJsonParser fs ann default_parser_cfg pre io0 = (OK self, tr) /\
    deprecated_format self = false /\ label_only self = false /\
    total_number self = N /\
    load_data_list fs {| self := self; io := tr |} =
      (OK (map (fun i => {| img_path := osp_join pre (image_key (i + 1));
                            instances := [ {| text := labels i |} ] |})
               (range N)), st') /\
    Z.of_nat (length (range N)) = N.
Proof.
  intros Hopen Hcount HN Himg Hlabels Hinv.
  eexists _, _, _. split; [by apply (init_modern _ _ _ _ _ _ store)|].
  assert (Hprobe : probe_label_only store = false).
  { unfold probe_label_only. by destruct (store !! image_key 1). }
  rewrite Hprobe. repeat split.
  - rewrite load_data_list_no_env by done. simpl. rewrite Hopen. simpl.
    f_equal. rewrite (collect_all_OK _ (fun i =>
      {| img_path := osp_join pre (image_key (i + 1));
         instances := [ {| text := labels i |} ] |})); [done|].
    intros i Hi%elem_of_range. rewrite eval_load_one, eval_read_line. simpl.
    destruct (Hlabels i Hi) as (b & -> & Hb). simpl. rewrite Hb.
    by rewrite eval_parse_data_info_dumps.
  - rewrite length_range. lia.
Qed.
End Modern.

Lemma modern_store_records_witness :
  exists self tr st',
    __init__ int_decimal line_json_parser {[ "db" := store_modern ]} "db"
             default_parser_cfg "prefix" [] = (OK self, tr) /\
    deprecated_format self = false /\ label_only self = false /\
    total_number self = 2 /\
    load_data_list {[ "db" := store_modern ]} {| self := self; io := tr |} =
      (OK [ {| img_path := "prefix/image-000000001";
               instances := [ {| text := "hello" |} ] |};
            {| img_path := "prefix/image-000000002";
               instances := [ {| text := "world" |} ] |} ], st') /\
    Z.of_nat 2 = 2.
Proof.
  apply (modern_store_records int_decimal line_json_parser
           {[ "db" := store_modern ]} "db" "prefix" store_modern 2
           labels_modern []).
  - reflexivity.
  - reflexivity.
  - lia.
  - discriminate.
  - intros i Hi. assert (i = 0 \/ i = 1) as [-> | ->] by lia;
      eexists; split; reflexivity.
  - apply line_json_parser_inverts_dumps.
Defined.

(** ** Deprecated stores *)

Lemma load_data_list_after_init fs o tr :
  env o = None ->
  load_data_list fs {| self := o; io := tr |} =
  match fs !! ann_file o with
  | None => (Raise lmdb_Error, {| self := o; io := tr ++ [Open (ann_file o)] |})
  | Some txn =>
      (collect (fun i => eval (load_one o txn i)) (range (total_number o)) [],
       {| self := with_env txn o;
          io := tr ++ Open (ann_file o) ::
                  map (fun i => Get (record_key o i))
                    (reached (fun i => eval (load_one o txn i))
                             (range (total_number o))) |})
  end.
Proof. intros Henv. by rewrite load_data_list_no_env. Qed.

Section Deprecated.
Variable int : string -> option Z.
Variable LineJsonParser : list string -> string -> result (gmap string string).

(** C2, amended.  A store without [num-samples] whose key
    [total_number] reads as [N] is taken for a deprecated store.  For
    each index the value at the bare decimal key is decoded and split
    at its space: when every value is a file name, one space and a
    text, file name and text without a space, and neither begins nor
    ends with a slash, an [n] or a newline, [load_data_list] returns
    the [N] records of these file names, joined to the prefix, and
    texts. *)
Theorem deprecated_store_records
    (fs : gmap string Env) (ann pre : string) (store : Env) (N : Z)
    (fname txt : Z -> string) (io0 : list event) :
  fs !! ann = Some store ->
  store !! "num-samples" = None ->
  count_at int store "total_number" = Some N ->
  0 <= N ->
  (forall i, 0 <= i < N ->
     exists b, store !! str i = Some b /\
               decode_utf8 b = OK (fname i +:+ String " " (txt i)) /\
               count_char " " (fname i) = 0%nat /\
               count_char " " (txt i) = 0%nat /\
               plain_ends slash_n_newline (fname i +:+ String " " (txt i)) = true) ->
  inverts_dumps (LineJsonParser ["filename"; "text"]) ->
  exists self tr st',
    __init__ int LineJsonParser fs ann default_parser_cfg pre io0 = (OK self, tr) /\
    deprecated_format self = true /\
    total_number self = N /\
    load_data_list fs {| self := self; io := tr |} =
      (OK (map (fun i => {| img_path := osp_join pre (fname i);
                            instances := [ {| text := txt i |} ] |})
               (range N)), st') /\
    Z.of_nat (length (range N)) = N.
Proof.
  intros Hopen Hns Hcount HN Hrec Hinv.
  eexists _, _, _. split; [by apply (init_deprecated _ _ _ _ _ _ store)|].
  repeat split.
  - rewrite load_data_list_after_init by done. simpl. rewrite Hopen.
    f_equal. rewrite (collect_all_OK _ (fun i =>
      {| img_path := osp_join pre (fname i);
         instances := [ {| text := txt i |} ] |})); [done|].
    intros i Hi%elem_of_range. rewrite eval_load_one, eval_read_line. simpl.
    destruct (Hrec i Hi) as (b & -> & Hb & Hf & Ht & Hends). simpl. rewrite Hb.
    rewrite strip_plain_ends by by apply plain_ends_slash_n.
    rewrite split_app, split_no_sep by done.
    by rewrite eval_parse_data_info_dumps.
  - rewrite length_range. lia.
Qed.
End Deprecated.

Lemma deprecated_store_records_witness :
  exists self tr st',
    __init__ int_decimal line_json_parser {[ "db" := store_deprecated ]} "db"
             default_parser_cfg "prefix" [] = (OK self, tr) /\
    deprecated_format self = true /\
    total_number self = 1 /\
    load_data_list {[ "db" := store_deprecated ]} {| self := self; io := tr |} =
      (OK [ {| img_path := "prefix/img1.png";
               instances := [ {| text := "cat" |} ] |} ], st') /\
    Z.of_nat 1 = 1.
Proof.
  apply (deprecated_store_records int_decimal line_json_parser
           {[ "db" := store_deprecated ]} "db" "prefix" store_deprecated 1
           (fun _ => "img1.png") (fun _ => "cat") []).
  - reflexivity.
  - reflexivity.
  - reflexivity.
  - lia.
  - intros i Hi. assert (i = 0) as -> by lia.
    eexists; repeat split; reflexivity.
  - apply line_json_parser_inverts_dumps.
Defined.

(** A record whose file name and text are two spaces apart splits, in
    the specification's words, at the run; [load_data_list] raises. *)
Lemma deprecated_two_spaces_counterexample :
  store_two_spaces !! "0" = Some "img1.png  cat" /\
  spec_deprecated_record "prefix" "img1.png  cat" =
    Some {| img_path := "prefix/img1.png";
            instances := [ {| text := "cat" |} ] |} /\
  probe_and_decode int_decimal line_json_parser {[ "db" := store_two_spaces ]}
    "db" default_parser_cfg "prefix" = Raise ValueError_unpack.
Proof. repeat split; vm_compute; reflexivity. Qed.

Section DeprecatedErrors.

(** What [load_data_list] returns, whatever it logs. *)
Lemma load_data_list_result fs st :
  fst (load_data_list fs st) =
  match store_of fs st with
  | None => Raise lmdb_Error
  | Some txn =>
      collect (fun i => eval (load_one (self st) txn i))
              (range (total_number (self st))) []
  end.
Proof.
  unfold store_of. destruct (env (self st)) as [txn|] eqn:Henv.
  - by rewrite (load_data_list_env _ _ txn).
  - rewrite load_data_list_no_env by done.
    by destruct (fs !! ann_file (self st)).
Qed.

(** The loop stops at the first index whose body raises. *)
Lemma load_data_list_first_Raise fs st txn i e :
  store_of fs st = Some txn ->
  0 <= i < total_number (self st) ->
  (forall j, 0 <= j < i -> exists r, eval (load_one (self st) txn j) = OK r) ->
  eval (load_one (self st) txn i) = Raise e ->
  fst (load_data_list fs st) = Raise e.
Proof.
  intros Hstore Hi Hbefore Hraise. rewrite load_data_list_result, Hstore.
  destruct (range_split _ _ Hi) as [rest ->].
  apply collect_first_Raise; [|done].
  intros j Hj%elem_of_range. by apply Hbefore.
Qed.

(** C4, amended.  In a deprecated store, when the scan reaches a value
    that does not hold exactly one space character, [load_data_list]
    raises the [ValueError] of the unpacking, the specification's
    [FormatError]. *)
Theorem deprecated_not_one_space
    (fs : gmap string Env) (st : State) (txn : Env) (i : Z) (b line : string) :
  deprecated_format (self st) = true ->
  store_of fs st = Some txn ->
  0 <= i < total_number (self st) ->
  (forall j, 0 <= j < i -> exists r, eval (load_one (self st) txn j) = OK r) ->
  txn !! str i = Some b ->
  decode_utf8 b = OK line ->
  count_char " " line ≠ 1%nat ->
  fst (load_data_list fs st) = Raise ValueError_unpack /\
  decoding_error ValueError_unpack = FormatError.
Proof.
  intros Hdep Hstore Hi Hbefore Hb Hline Hcount. split; [|done].
  apply (load_data_list_first_Raise _ _ txn i); try done.
  rewrite eval_load_one, eval_read_line, Hdep, Hb. simpl. rewrite Hline.
  pose proof (length_split " " (strip "/n" line)) as Hlen.
  rewrite count_char_strip in Hlen by done.
  destruct (split " " (strip "/n" line)) as [|f [|t [|? ?]]]; simpl in *;
    try done. lia.
Qed.
End DeprecatedErrors.

Example init_one_field :
  __init__ int_decimal line_json_parser {[ "db" := store_one_field ]} "db"
           default_parser_cfg "prefix" [] =
  (OK self_one_field,
   [Open "db"; Get "num-samples"; Warn; Get "total_number"; Get "image-000000001"]).
Proof. vm_compute. reflexivity. Qed.

Lemma deprecated_not_one_space_witness :
  fst (load_data_list {[ "db" := store_one_field ]}
         {| self := self_one_field; io := [] |}) = Raise ValueError_unpack /\
  decoding_error ValueError_unpack = FormatError.
Proof.
  apply (deprecated_not_one_space {[ "db" := store_one_field ]}
           {| self := self_one_field; io := [] |}
           store_one_field 1 "img2.png" "img2.png").
  - reflexivity.
  - reflexivity.
  - simpl. lia.
  - intros j Hj. assert (j = 0) as -> by lia. eexists. vm_compute. reflexivity.
  - reflexivity.
  - reflexivity.
  - vm_compute. lia.
Defined.

(** A value of three fields that whitespace separates, a tab and a space,
    holds one space: [load_data_list] returns its record. *)
Lemma deprecated_tab_counterexample :
  store_tab_space !! "0" = Some line_tab_space /\
  spec_whitespace_fields line_tab_space EmptyString = ["a"; "b"; "c"] /\
  probe_and_decode int_decimal line_json_parser {[ "db" := store_tab_space ]}
    "db" default_parser_cfg "prefix" =
  OK [ {| img_path := "prefix/a" +:+ String tab "b";
          instances := [ {| text := "c" |} ] |} ].
Proof. repeat split; vm_compute; reflexivity. Qed.

(** ** Modern stores with labels only *)

Lemma reached_all_OK {A} (f : Z -> result A) indices :
  (forall i, i ∈ indices -> exists r, f i = OK r) ->
  reached f indices = indices.
Proof.
  induction indices as [|i rest IH]; intros Hall; simpl; [done|].
  destruct (Hall i) as [r ->]; [left|]. rewrite IH; [done|].
  intros j Hj. apply Hall. by right.
Qed.

Lemma image_key_not_label_key i j : image_key i ≠ label_key j.
Proof. unfold image_key, label_key. simpl. discriminate. Qed.

Section LabelOnly.
Variable int : string -> option Z.
Variable LineJsonParser : list string -> string -> result (gmap string string).

(** C3, amended.  A store whose key [num-samples] reads as [N] and
    that lacks the first image key is taken for a modern store with
    labels only.  The decoded value at [label-%09d] of [i + 1] is the
    line handed to the parser as it is; the path and the text of the
    record are what the parser returns under its first and its second
    key.  [load_data_list] fetches the [N] label keys in order and no
    image key. *)
Theorem label_only_store_records
    (fs : gmap string Env) (ann pre : string) (parser_cfg : ParserCfg)
    (k0 k1 : string) (store : Env) (N : Z)
    (raw : Z -> string) (parsed : Z -> gmap string string)
    (path txt : Z -> string) (io0 : list event) :
  cfg_type parser_cfg = "LineJsonParser" ->
  cfg_keys parser_cfg = [k0; k1] ->
  fs !! ann = Some store ->
  count_at int store "num-samples" = Some N ->
  0 <= N ->
  store !! image_key 1 = None ->
  (forall i, 0 <= i < N ->
     store !! label_key (i + 1) = Some (raw i) /\
     decode_utf8 (raw i) = OK (raw i) /\
     LineJsonParser [k0; k1] (raw i) = OK (parsed i) /\
     parsed i !! k0 = Some (path i) /\
     parsed i !! k1 = Some (txt i)) ->
  exists self tr st',
    __init__ int LineJsonParser fs ann parser_cfg pre io0 = (OK self, tr) /\
    deprecated_format self = false /\ label_only self = true /\
    total_number self = N /\
    load_data_list fs {| self := self; io := tr |} =
      (OK (map (fun i => {| img_path := osp_join pre (path i);
                            instances := [ {| text := txt i |} ] |})
               (range N)), st') /\
    io st' = tr ++ Open ann :: map (fun i => Get (label_key (i + 1))) (range N) /\
    forall j, Get (image_key j) ∉
              Open ann :: map (fun i => Get (label_key (i + 1))) (range N).
Proof.
  intros Htype Hkeys Hopen Hcount HN Himg Hrec.
  assert (Hlen : length (cfg_keys parser_cfg) = 2%nat) by by rewrite Hkeys.
  eexists _, _, _. split; [by apply (init_modern _ _ _ _ _ _ store)|].
  assert (Hprobe : probe_label_only store = true).
  { unfold probe_label_only. by rewrite Himg. }
  rewrite Hprobe.
  set (o := {| parser := built LineJsonParser parser_cfg; ann_file := ann;
               data_prefix := pre; deprecated_format := false;
               total_number := N; label_only := true; env := None |}).
  assert (Hbody : forall i, i ∈ range N ->
            eval (load_one o store i) =
            OK {| img_path := osp_join pre (path i);
                  instances := [ {| text := txt i |} ] |}).
  { intros i Hi%elem_of_range. rewrite eval_load_one, eval_read_line. simpl.
    destruct (Hrec i Hi) as (-> & Hutf & Hcall & H0 & H1). simpl. rewrite Hutf.
    apply (eval_parse_data_info o _ (parsed i) k0 k1); try done.
    simpl. by rewrite Hkeys. }
  split; [done|]. split; [done|]. split; [done|].
  rewrite load_data_list_after_init by done. simpl. rewrite Hopen.
  rewrite reached_all_OK by (intros i Hi; rewrite Hbody; eauto).
  split; [|split].
  - f_equal. by rewrite (collect_all_OK _ _ _ _ Hbody).
  - done.
  - intros j [Hj|Hj]%elem_of_cons; [done|].
    apply list_elem_of_fmap in Hj as (i & Hij & _).
    assert (image_key j = label_key (i + 1)) as Heq by congruence.
    by apply image_key_not_label_key in Heq.
Qed.
End LabelOnly.

Lemma label_only_store_records_witness :
  exists self tr st',
    __init__ int_decimal line_json_parser {[ "db" := store_label_only ]} "db"
             default_parser_cfg "prefix" [] = (OK self, tr) /\
    deprecated_format self = false /\ label_only self = true /\
    total_number self = 1 /\
    load_data_list {[ "db" := store_label_only ]} {| self := self; io := tr |} =
      (OK [ {| img_path := "prefix/a.png";
               instances := [ {| text := "hi" |} ] |} ], st') /\
    io st' = tr ++ [Open "db"; Get "label-000000001"] /\
    forall j, Get (image_key j) ∉ [Open "db"; Get "label-000000001"].
Proof.
  apply (label_only_store_records int_decimal line_json_parser
           {[ "db" := store_label_only ]} "db" "prefix" default_parser_cfg
           "filename" "text" store_label_only 1
           (fun _ => json_dumps "a.png" "hi")
           (fun _ => <["text" := "hi"]> (<["filename" := "a.png"]> ∅))
           (fun _ => "a.png") (fun _ => "hi") []).
  - reflexivity.
  - reflexivity.
  - reflexivity.
  - reflexivity.
  - lia.
  - reflexivity.
  - intros i Hi. assert (i = 0) as -> by lia.
    repeat split; vm_compute; reflexivity.
Defined.

(** The text of a record of a store with labels only is what the parser
    finds under [text] in the stored line, not the stored line. *)
Lemma label_only_text_counterexample :
  store_label_only !! label_key 1 = Some (json_dumps "a.png" "hi") /\
  probe_and_decode int_decimal line_json_parser {[ "db" := store_label_only ]}
    "db" default_parser_cfg "prefix" =
  OK [ {| img_path := "prefix/a.png"; instances := [ {| text := "hi" |} ] |} ] /\
  "hi" ≠ json_dumps "a.png" "hi".
Proof. repeat split; vm_compute; (reflexivity || discriminate). Qed.

(** ** Errors of the constructor *)

Section ConstructionErrors.
Variable int : string -> option Z.
Variable LineJsonParser : list string -> string -> result (gmap string string).

(** C5.  When neither [num-samples] nor [total_number] is present,
    well-formed UTF-8 and an integer literal, the constructor raises:
    the [AttributeError] of the absent key, the [UnicodeDecodeError] or
    the [ValueError] of [int], the specification's [FormatError]. *)
Theorem no_count_key_fails
    (fs : gmap string Env) (ann pre : string) (parser_cfg : ParserCfg)
    (store : Env) (io0 : list event) :
  cfg_type parser_cfg = "LineJsonParser" ->
  length (cfg_keys parser_cfg) = 2%nat ->
  fs !! ann = Some store ->
  count_at int store "num-samples" = None ->
  count_at int store "total_number" = None ->
  exists e tr,
    __init__ int LineJsonParser fs ann parser_cfg pre io0 = (Raise e, tr) /\
    construction_error e = FormatError.
Proof.
  intros Htype Hkeys Hopen Hns Htn.
  destruct (init_no_count int LineJsonParser fs ann parser_cfg pre store
              Htype Hkeys Hopen io0 Hns Htn) as (e & tr & Hinit & He).
  exists e, tr. split; [done|]. by destruct He as [->|[->| ->]].
Qed.

(** C7.  A parser configuration of another type than [LineJsonParser],
    or with other than two keys, makes the constructor raise the
    specification's [ConfigurationError] with nothing logged: the store
    is neither opened nor read. *)
Theorem unsupported_parser_cfg_fails
    (fs : gmap string Env) (ann pre : string) (parser_cfg : ParserCfg)
    (io0 : list event) :
  cfg_type parser_cfg ≠ "LineJsonParser" \/ length (cfg_keys parser_cfg) ≠ 2%nat ->
  exists e,
    __init__ int LineJsonParser fs ann parser_cfg pre io0 = (Raise e, io0) /\
    construction_error e = ConfigurationError.
Proof.
  intros Hcfg. eexists. split; [by apply init_unsupported|].
  by destruct (String.eqb _ _).
Qed.

(** C8, amended.  The first image key is probed after the count is
    read, in a deprecated store as in a modern one: it is the last
    event of the constructor, and [label_only] is set exactly when the
    key is absent, whichever the format. *)
Theorem image_probe_in_both_formats
    (fs : gmap string Env) (ann pre : string) (parser_cfg : ParserCfg)
    (store : Env) (n : Z) (io0 : list event) :
  cfg_type parser_cfg = "LineJsonParser" ->
  length (cfg_keys parser_cfg) = 2%nat ->
  fs !! ann = Some store ->
  count_at int store "num-samples" = Some n \/
  (store !! "num-samples" = None /\ count_at int store "total_number" = Some n) ->
  exists self tr,
    __init__ int LineJsonParser fs ann parser_cfg pre io0 =
      (OK self, io0 ++ tr ++ [Get (image_key 1)]) /\
    total_number self = n /\
    deprecated_format self = bool_decide (store !! "num-samples" = None) /\
    (label_only self = true <-> store !! image_key 1 = None).
Proof.
  intros Htype Hkeys Hopen Hcount.
  assert (Hprobe : probe_label_only store = true <-> store !! image_key 1 = None).
  { unfold probe_label_only. by destruct (store !! image_key 1). }
  destruct Hcount as [Hns|[Hns Htn]].
  - eexists _, [Open ann; Get "num-samples"].
    rewrite (init_modern _ _ _ _ _ _ store Htype Hkeys Hopen n) by done.
    simpl. repeat split; try apply Hprobe.
    rewrite bool_decide_eq_false_2; [done|].
    intros Hnone. unfold count_at in Hns. by rewrite Hnone in Hns.
  - eexists _, [Open ann; Get "num-samples"; Warn; Get "total_number"].
    rewrite (init_deprecated _ _ _ _ _ _ store Htype Hkeys Hopen n) by done.
    simpl. repeat split; try apply Hprobe.
    by rewrite bool_decide_eq_true_2.
Qed.
End ConstructionErrors.

Lemma no_count_key_fails_witness :
  exists e tr,
    __init__ int_decimal line_json_parser {[ "db" := store_no_count ]} "db"
             default_parser_cfg "prefix" [] = (Raise e, tr) /\
    construction_error e = FormatError.
Proof.
  apply (no_count_key_fails int_decimal line_json_parser
           {[ "db" := store_no_count ]} "db" "prefix" default_parser_cfg
           store_no_count []); reflexivity.
Defined.

Lemma unsupported_parser_cfg_fails_witness :
  (exists e,
     __init__ int_decimal line_json_parser {[ "db" := store_modern ]} "db"
              line_str_cfg "prefix" [] = (Raise e, []) /\
     construction_error e = ConfigurationError) /\
  (exists e,
     __init__ int_decimal line_json_parser {[ "db" := store_modern ]} "db"
              three_keys_cfg "prefix" [] = (Raise e, []) /\
     construction_error e = ConfigurationError).
Proof.
  split.
  - apply (unsupported_parser_cfg_fails int_decimal line_json_parser
             {[ "db" := store_modern ]} "db" "prefix" line_str_cfg []).
    left. discriminate.
  - apply (unsupported_parser_cfg_fails int_decimal line_json_parser
             {[ "db" := store_modern ]} "db" "prefix" three_keys_cfg []).
    right. simpl. lia.
Defined.

Lemma image_probe_in_both_formats_witness :
  exists self tr,
    __init__ int_decimal line_json_parser {[ "db" := store_deprecated ]} "db"
             default_parser_cfg "prefix" [] =
      (OK self, [] ++ tr ++ [Get (image_key 1)]) /\
    total_number self = 1 /\
    deprecated_format self = bool_decide (store_deprecated !! "num-samples" = None) /\
    (label_only self = true <-> store_deprecated !! image_key 1 = None).
Proof.
  apply (image_probe_in_both_formats int_decimal line_json_parser
           {[ "db" := store_deprecated ]} "db" "prefix" default_parser_cfg
           store_deprecated 1 []).
  - reflexivity.
  - reflexivity.
  - reflexivity.
  - right. split; reflexivity.
Defined.

(** The constructor probes the first image key of a deprecated store
    and, the key absent, sets [label_only]. *)
Lemma deprecated_label_only_counterexample :
  exists self,
    __init__ int_decimal line_json_parser {[ "db" := store_deprecated ]} "db"
             default_parser_cfg "prefix" [] =
      (OK self, [Open "db"; Get "num-samples"; Warn; Get "total_number";
                 Get "image-000000001"]) /\
    deprecated_format self = true /\
    label_only self = true.
Proof. eexists. repeat split; vm_compute; reflexivity. Qed.

(** ** Truncated stores, and all or nothing *)

Lemma load_one_missing_key self txn i :
  txn !! record_key self i = None ->
  eval (load_one self txn i) = Raise AttributeError_NoneType_decode.
Proof.
  unfold record_key. rewrite eval_load_one, eval_read_line.
  destruct (deprecated_format self); [|destruct (label_only self)];
    by intros ->.
Qed.

(** C6.  When a key that the declared count makes [load_data_list] fetch
    is absent, [load_data_list] raises; it raises the [AttributeError] of
    the absent key, the specification's [StoreAccessError], when the scan
    reaches that key.  A list is returned only complete, with one record
    for each declared index. *)
Theorem truncated_store_fails
    (fs : gmap string Env) (st : State) (txn : Env) (i : Z) :
  store_of fs st = Some txn ->
  0 <= i < total_number (self st) ->
  txn !! record_key (self st) i = None ->
  (exists e, fst (load_data_list fs st) = Raise e) /\
  ((forall j, 0 <= j < i -> exists r, eval (load_one (self st) txn j) = OK r) ->
   fst (load_data_list fs st) = Raise AttributeError_NoneType_decode) /\
  decoding_error AttributeError_NoneType_decode = StoreAccessError /\
  (forall fs' st' l,
     fst (load_data_list fs' st') = OK l ->
     length l = Z.to_nat (total_number (self st'))).
Proof.
  intros Hstore Hi Hmiss. apply load_one_missing_key in Hmiss.
  split; [|split; [|split; [done|]]].
  - rewrite load_data_list_result, Hstore.
    destruct (collect _ _ _) as [l|e] eqn:Hl; [|eauto].
    destruct (collect_OK_inv _ _ _ _ Hl i) as [r Hr]; [by apply elem_of_range|].
    congruence.
  - intros Hbefore. by apply (load_data_list_first_Raise _ _ txn i).
  - intros fs' st' l. rewrite load_data_list_result.
    destruct (store_of fs' st'); [|done].
    intros Hl%collect_OK_length. by rewrite length_range in Hl.
Qed.

Example init_truncated :
  __init__ int_decimal line_json_parser {[ "db" := store_truncated ]} "db"
           default_parser_cfg "prefix" [] =
  (OK self_truncated, [Open "db"; Get "num-samples"; Get "image-000000001"]).
Proof. vm_compute. reflexivity. Qed.

Lemma truncated_store_fails_witness :
  (exists e, fst (load_data_list {[ "db" := store_truncated ]}
                    {| self := self_truncated; io := [] |}) = Raise e) /\
  ((forall j, 0 <= j < 1 ->
      exists r, eval (load_one self_truncated store_truncated j) = OK r) ->
   fst (load_data_list {[ "db" := store_truncated ]}
          {| self := self_truncated; io := [] |})
   = Raise AttributeError_NoneType_decode) /\
  decoding_error AttributeError_NoneType_decode = StoreAccessError /\
  (forall fs' st' l,
     fst (load_data_list fs' st') = OK l ->
     length l = Z.to_nat (total_number (self st'))).
Proof.
  apply (truncated_store_fails {[ "db" := store_truncated ]}
           {| self := self_truncated; io := [] |} store_truncated 1).
  - reflexivity.
  - simpl. lia.
  - reflexivity.
Defined.

(** ** Calling [load_data_list] again *)

(** C9.  A second call of [load_data_list], on the object as the first
    call left it and the same directory tree, returns what the first
    call returned. *)
Theorem load_data_list_twice (fs : gmap string Env) (st : State) :
  fst (load_data_list fs (snd (load_data_list fs st))) =
  fst (load_data_list fs st).
Proof.
  rewrite !load_data_list_result. unfold store_of.
  destruct (env (self st)) as [txn|] eqn:Henv.
  - rewrite (load_data_list_env _ _ txn) by done. simpl. by rewrite Henv.
  - rewrite load_data_list_no_env by done.
    destruct (fs !! ann_file (self st)) as [txn|] eqn:Hopen; simpl.
    + done.
    + by rewrite Henv, Hopen.
Qed.

(** ** Deprecated stores and image keys *)

(** The path and the text of a record come from the parser and the
    prefix; the flags of the object are not read. *)
Lemma eval_parse_data_info_flags o1 o2 raw :
  parser o1 = parser o2 ->
  data_prefix o1 = data_prefix o2 ->
  eval (parse_data_info o1 raw) = eval (parse_data_info o2 raw).
Proof. intros Hp Hd. unfold parse_data_info. by rewrite Hp, Hd. Qed.

(** On the deprecated branch the body reads the bare decimal key only. *)
Lemma eval_load_one_deprecated o1 o2 txn1 txn2 i :
  deprecated_format o1 = true ->
  deprecated_format o2 = true ->
  parser o1 = parser o2 ->
  data_prefix o1 = data_prefix o2 ->
  txn1 !! str i = txn2 !! str i ->
  eval (load_one o1 txn1 i) = eval (load_one o2 txn2 i).
Proof.
  intros Hd1 Hd2 Hp Hpre Hi.
  rewrite !eval_load_one, !eval_read_line, Hd1, Hd2, Hi.
  destruct (decode (txn2 !! str i)) as [line|]; [|done].
  destruct (split " " (strip "/n" line)) as [|? [|? [|? ?]]]; try done.
  by apply eval_parse_data_info_flags.
Qed.

(** The decimal digits of a natural number do not spell an image key. *)
Lemma str_not_image_key i : 0 <= i -> str i ≠ image_key 1.
Proof.
  intros Hi. unfold str. destruct i as [|p|p]; [done| |lia].
  simpl. by destruct (Pos.to_uint p).
Qed.

Section DeprecatedImages.
Variable int : string -> option Z.
Variable LineJsonParser : list string -> string -> result (gmap string string).

(** C10.  Two stores without [num-samples] that agree on
    [total_number] and on every bare decimal key give the same outcome
    of the constructor followed by [load_data_list], whatever image
    keys either holds: [label_only], which the probe sets, is not read
    on the deprecated branch. *)
Theorem deprecated_ignores_image_keys
    (fs1 fs2 : gmap string Env) (ann pre : string) (parser_cfg : ParserCfg)
    (store1 store2 : Env) :
  fs1 !! ann = Some store1 ->
  fs2 !! ann = Some store2 ->
  store1 !! "num-samples" = None ->
  store2 !! "num-samples" = None ->
  store1 !! "total_number" = store2 !! "total_number" ->
  (forall i, 0 <= i -> store1 !! str i = store2 !! str i) ->
  probe_and_decode int LineJsonParser fs1 ann parser_cfg pre =
  probe_and_decode int LineJsonParser fs2 ann parser_cfg pre.
Proof.
  intros Hopen1 Hopen2 Hns1 Hns2 Htn Hkeys. unfold probe_and_decode.
  destruct (decide (cfg_type parser_cfg = "LineJsonParser")) as [Htype|Htype];
    [destruct (decide (length (cfg_keys parser_cfg) = 2%nat)) as [Hlen|Hlen]|].
  - assert (Hcount : count_at int store1 "total_number" =
                     count_at int store2 "total_number").
    { unfold count_at. by rewrite Htn. }
    destruct (count_at int store1 "total_number") as [n|] eqn:Hc1.
    + rewrite (init_deprecated _ _ _ _ _ _ store1 Htype Hlen Hopen1 n) by done.
      rewrite (init_deprecated _ _ _ _ _ _ store2 Htype Hlen Hopen2 n) by done.
      rewrite !load_data_list_result. unfold store_of. simpl.
      rewrite Hopen1, Hopen2. apply collect_ext.
      intros i Hi%elem_of_range.
      apply eval_load_one_deprecated; try done. apply Hkeys. lia.
    + destruct (init_deprecated_no_count int LineJsonParser fs1 ann parser_cfg
                  pre store1 Htype Hlen Hopen1 [] Hns1 Hc1) as [tr1 ->].
      destruct (init_deprecated_no_count int LineJsonParser fs2 ann parser_cfg
                  pre store2 Htype Hlen Hopen2 [] Hns2 (eq_sym Hcount))
        as [tr2 ->].
      by rewrite Htn.
  - by rewrite !init_unsupported by by right.
  - by rewrite !init_unsupported by by left.
Qed.
End DeprecatedImages.

Lemma deprecated_ignores_image_keys_witness :
  probe_and_decode int_decimal line_json_parser {[ "db" := store_deprecated ]}
    "db" default_parser_cfg "prefix" =
  probe_and_decode int_decimal line_json_parser {[ "db" := store_deprecated_image ]}
    "db" default_parser_cfg "prefix".
Proof.
  apply (deprecated_ignores_image_keys int_decimal line_json_parser
           {[ "db" := store_deprecated ]} {[ "db" := store_deprecated_image ]}
           "db" "prefix" default_parser_cfg
           store_deprecated store_deprecated_image).
  - reflexivity.
  - reflexivity.
  - reflexivity.
  - reflexivity.
  - reflexivity.
  - intros i Hi. unfold store_deprecated_image.
    symmetry. apply lookup_insert_ne.
    intros Heq. by apply (str_not_image_key i Hi).
Defined.

(** The two stores differ in what the probe finds, and in nothing that
    [load_data_list] returns. *)
Example deprecated_image_probe_differs :
  probe_label_only store_deprecated = true /\
  probe_label_only store_deprecated_image = false /\
  probe_and_decode int_decimal line_json_parser {[ "db" := store_deprecated_image ]}
    "db" default_parser_cfg "prefix" =
  OK [ {| img_path := "prefix/img1.png"; instances := [ {| text := "cat" |} ] |} ].
Proof. repeat split; vm_compute; reflexivity. Qed.

(** * Further properties of the constructor and [load_data_list] *)

(** ** The constructor, outcome by outcome *)

Section ConstructionRun.
Variable int : string -> option Z.
Variable LineJsonParser : list string -> string -> result (gmap string string).
Variables (fs : gmap string Env) (ann : string) (parser_cfg : ParserCfg)
          (pre : string) (store : Env).
Hypothesis Htype : cfg_type parser_cfg = "LineJsonParser".
Hypothesis Hkeys : length (cfg_keys parser_cfg) = 2%nat.
Hypothesis Hopen : fs !! ann = Some store.

Lemma init_run io0 :
  __init__ int LineJsonParser fs ann parser_cfg pre io0 =
  match store !! "num-samples" with
  | Some b =>
      if utf8_run U_start b then
        match int b with
        | Some n =>
            (OK (constructed LineJsonParser ann parser_cfg pre store false n),
             io0 ++ [Open ann; Get "num-samples"; Get (image_key 1)])
        | None => (Raise ValueError_int, io0 ++ [Open ann; Get "num-samples"])
        end
      else (Raise UnicodeDecodeError, io0 ++ [Open ann; Get "num-samples"])
  | None =>
      match store !! "total_number" with
      | Some b =>
          if utf8_run U_start b then
            match int b with
            | Some n =>
                (OK (constructed LineJsonParser ann parser_cfg pre store true n),
                 io0 ++ [Open ann; Get "num-samples"; Warn; Get "total_number";
                         Get (image_key 1)])
            | None =>
                (Raise ValueError_int,
                 io0 ++ [Open ann; Get "num-samples"; Warn; Get "total_number"])
            end
          else
            (Raise UnicodeDecodeError,
             io0 ++ [Open ann; Get "num-samples"; Warn; Get "total_number"])
      | None =>
          (Raise AttributeError_NoneType_decode,
           io0 ++ [Open ann; Get "num-samples"; Warn; Get "total_number"])
      end
  end.
Proof.
  unfold __init__, TASK_UTILS_build, _get_env, read_count,
    try_except_AttributeError, to_int, constructed, probe_label_only, built.
  rewrite Htype, Hkeys. run_M. rewrite Hopen. simpl.
  unfold log_event, list_logger, decode, decode_utf8.
  destruct (store !! "num-samples") as [b|]; simpl.
  - destruct (utf8_run U_start b); simpl; [|by rewrite <- !app_assoc].
    destruct (int b); simpl; by rewrite <- !app_assoc.
  - destruct (store !! "total_number") as [b|]; simpl;
      [|by rewrite <- !app_assoc].
    destruct (utf8_run U_start b); simpl; [|by rewrite <- !app_assoc].
    destruct (int b); simpl; by rewrite <- !app_assoc.
Qed.
End ConstructionRun.

Lemma warnings_app tr1 tr2 : warnings (tr1 ++ tr2) = (warnings tr1 + warnings tr2)%nat.
Proof.
  induction tr1 as [|ev tr1 IH]; simpl; [done|]. destruct ev; simpl; lia.
Qed.


Section Warning.
Variable int : string -> option Z.
Variable LineJsonParser : list string -> string -> result (gmap string string).

(** X1.  With a supported parser configuration and a store that opens,
    the constructor warns once when the store has no key [num-samples]
    and not at all when it has it, whether it then returns or raises and
    whatever the count. *)
Theorem deprecation_warning_once
    (fs : gmap string Env) (ann pre : string) (parser_cfg : ParserCfg)
    (store : Env) (io0 : list event) :
  cfg_type parser_cfg = "LineJsonParser" ->
  length (cfg_keys parser_cfg) = 2%nat ->
  fs !! ann = Some store ->
  warnings (snd (__init__ int LineJsonParser fs ann parser_cfg pre io0)) =
  (warnings io0 + match store !! "num-samples" with
                  | None => 1
                  | Some _ => 0
                  end)%nat.
Proof.
  intros Htype Hkeys Hopen.
  rewrite (init_run int LineJsonParser fs ann parser_cfg pre store Htype Hkeys Hopen).
  destruct (store !! "num-samples") as [b|];
    [|destruct (store !! "total_number") as [b|]];
    repeat match goal with
           | |- context [if ?c then _ else _] => destruct c
           | |- context [match int ?x with _ => _ end] => destruct (int x)
           end; simpl; rewrite warnings_app; simpl; lia.
Qed.

(** X2.  A key [num-samples] that is present and is not well-formed
    UTF-8 or no integer literal makes the constructor raise, with the
    store opened and that one key read: only the [AttributeError] of an
    absent key is caught, so [total_number] is not consulted and nothing
    is warned. *)
Theorem malformed_num_samples_is_fatal
    (fs : gmap string Env) (ann pre : string) (parser_cfg : ParserCfg)
    (store : Env) (b : string) (io0 : list event) :
  cfg_type parser_cfg = "LineJsonParser" ->
  length (cfg_keys parser_cfg) = 2%nat ->
  fs !! ann = Some store ->
  store !! "num-samples" = Some b ->
  count_at int store "num-samples" = None ->
  exists e,
    __init__ int LineJsonParser fs ann parser_cfg pre io0 =
      (Raise e, io0 ++ [Open ann; Get "num-samples"]) /\
    (e = UnicodeDecodeError \/ e = ValueError_int) /\
    construction_error e = FormatError.
Proof.
  intros Htype Hkeys Hopen Hb Hcount.
  rewrite (init_run int LineJsonParser fs ann parser_cfg pre store Htype Hkeys Hopen).
  unfold count_at, decode_utf8 in Hcount. rewrite Hb in *.
  destruct (utf8_run U_start b); [|eauto].
  rewrite Hcount. eauto.
Qed.

(** X3.  When [num-samples] reads as an integer the store is taken for
    a modern one with that count, whatever it holds at [total_number]:
    that key is not read. *)
Theorem num_samples_takes_precedence
    (fs : gmap string Env) (ann pre : string) (parser_cfg : ParserCfg)
    (store : Env) (n : Z) (io0 : list event) :
  cfg_type parser_cfg = "LineJsonParser" ->
  length (cfg_keys parser_cfg) = 2%nat ->
  fs !! ann = Some store ->
  count_at int store "num-samples" = Some n ->
  exists self,
    __init__ int LineJsonParser fs ann parser_cfg pre io0 =
      (OK self, io0 ++ [Open ann; Get "num-samples"; Get (image_key 1)]) /\
    deprecated_format self = false /\
    total_number self = n /\
    Get "total_number" ∉ [Open ann; Get "num-samples"; Get (image_key 1)].
Proof.
  intros Htype Hkeys Hopen Hcount.
  rewrite (init_run int LineJsonParser fs ann parser_cfg pre store Htype Hkeys Hopen).
  unfold count_at, decode_utf8 in Hcount.
  destruct (store !! "num-samples") as [b|]; [|done].
  destruct (utf8_run U_start b); [|done]. rewrite Hcount.
  eexists. repeat split.
  rewrite !not_elem_of_cons. repeat split; try done. apply not_elem_of_nil.
Qed.
End Warning.

Lemma deprecation_warning_once_witness :
  warnings (snd (__init__ int_decimal line_json_parser
                   {[ "db" := store_deprecated ]} "db" default_parser_cfg
                   "prefix" [])) = 1%nat /\
  warnings (snd (__init__ int_decimal line_json_parser
                   {[ "db" := store_modern ]} "db" default_parser_cfg
                   "prefix" [])) = 0%nat.
Proof.
  split.
  - apply (deprecation_warning_once int_decimal line_json_parser
             {[ "db" := store_deprecated ]} "db" "prefix" default_parser_cfg
             store_deprecated []); reflexivity.
  - apply (deprecation_warning_once int_decimal line_json_parser
             {[ "db" := store_modern ]} "db" "prefix" default_parser_cfg
             store_modern []); reflexivity.
Defined.

Lemma malformed_num_samples_is_fatal_witness :
  exists e,
    __init__ int_decimal line_json_parser {[ "db" := store_malformed_count ]}
             "db" default_parser_cfg "prefix" [] =
      (Raise e, [] ++ [Open "db"; Get "num-samples"]) /\
    (e = UnicodeDecodeError \/ e = ValueError_int) /\
    construction_error e = FormatError.
Proof.
  apply (malformed_num_samples_is_fatal int_decimal line_json_parser
           {[ "db" := store_malformed_count ]} "db" "prefix"
           default_parser_cfg store_malformed_count "two" []); reflexivity.
Defined.

Lemma num_samples_takes_precedence_witness :
  exists self,
    __init__ int_decimal line_json_parser {[ "db" := store_both_counts ]}
             "db" default_parser_cfg "prefix" [] =
      (OK self, [] ++ [Open "db"; Get "num-samples"; Get (image_key 1)]) /\
    deprecated_format self = false /\
    total_number self = 1 /\
    Get "total_number" ∉ [Open "db"; Get "num-samples"; Get (image_key 1)].
Proof.
  apply (num_samples_takes_precedence int_decimal line_json_parser
           {[ "db" := store_both_counts ]} "db" "prefix" default_parser_cfg
           store_both_counts 1 []); reflexivity.
Defined.

(** ** What [load_data_list] fetches *)

Lemma lookup_range n (j : nat) :
  (j < Z.to_nat n)%nat -> range n !! j = Some (Z.of_nat j).
Proof.
  intros Hj. unfold range. rewrite list_lookup_fmap, lookup_seq_lt by done.
  done.
Qed.

Lemma take_range (m : nat) n :
  (m <= Z.to_nat n)%nat -> take m (range n) = range (Z.of_nat m).
Proof.
  intros Hm. unfold range. rewrite <- fmap_take, take_seq.
  by rewrite Nat2Z.id, Nat.min_l.
Qed.

(** The bodies that ran are an initial segment of the indices: all of
    them when the loop returns, up to the one that raised otherwise. *)
Lemma reached_collect {A} (f : Z -> result A) indices acc :
  reached f indices = take (length (reached f indices)) indices /\
  match collect f indices acc with
  | OK _ => length (reached f indices) = length indices
  | Raise e =>
      exists m i, length (reached f indices) = S m /\
                  indices !! m = Some i /\ f i = Raise e /\
                  forall j, j ∈ take m indices -> exists r, f j = OK r
  end.
Proof.
  revert acc. induction indices as [|i rest IH]; intros acc; simpl; [done|].
  destruct (f i) as [r|e] eqn:Hi.
  - destruct (IH (acc ++ [r])) as [Htake Hres]. split; [by f_equal|].
    destruct (collect f rest (acc ++ [r])) as [l|e]; [by f_equal|].
    destruct Hres as (m & k & Hlen & Hk & Hfk & Hbefore).
    exists (S m), k. repeat split; try done; [by f_equal|].
    simpl. intros j [->|Hj]%elem_of_cons; eauto.
  - split; [done|]. exists 0%nat, i. repeat split; try done.
    simpl. intros j Hj. by apply elem_of_nil in Hj.
Qed.

Lemma reached_range {A} (f : Z -> result A) n acc :
  exists k, 0 <= k <= Z.max 0 n /\
    reached f (range n) = range k /\
    match collect f (range n) acc with
    | OK _ => k = Z.max 0 n
    | Raise e =>
        1 <= k /\ f (k - 1) = Raise e /\
        forall j, 0 <= j < k - 1 -> exists r, f j = OK r
    end.
Proof.
  destruct (reached_collect f (range n) acc) as [Htake Hres].
  pose proof (length_range n) as Hlen.
  exists (Z.of_nat (length (reached f (range n)))).
  assert (Hle : (length (reached f (range n)) <= Z.to_nat n)%nat).
  { rewrite <- Hlen, Htake at 1. rewrite length_take. lia. }
  split; [lia|]. split; [by rewrite Htake at 1; rewrite take_range|].
  destruct (collect f (range n) acc) as [l|e]; [lia|].
  destruct Hres as (m & i & Hm & Hi & Hfi & Hbefore).
  rewrite Hm in *. rewrite lookup_range in Hi by lia. injection Hi as <-.
  split; [lia|]. split.
  - by replace (Z.of_nat (S m) - 1) with (Z.of_nat m) by lia.
  - intros j Hj. apply Hbefore. rewrite take_range by lia.
    apply elem_of_range. lia.
Qed.

(** X4.  [load_data_list] opens the store when the object holds no
    environment, then fetches the record keys of the indices [0], [1],
    ... in order, one fetch an index.  It fetches the keys of all the
    declared indices when it returns; when it raises, the last key it
    fetched is that of the first index whose record raised, with the
    exception of that record. *)
Theorem load_data_list_fetches_in_order
    (fs : gmap string Env) (st : State) (txn : Env) :
  store_of fs st = Some txn ->
  exists k,
    0 <= k <= Z.max 0 (total_number (self st)) /\
    io (snd (load_data_list fs st)) =
      io st ++
      match env (self st) with
      | None => [Open (ann_file (self st))]
      | Some _ => []
      end ++ map (fun i => Get (record_key (self st) i)) (range k) /\
    match fst (load_data_list fs st) with
    | OK _ => k = Z.max 0 (total_number (self st))
    | Raise e =>
        1 <= k /\ eval (load_one (self st) txn (k - 1)) = Raise e /\
        forall j, 0 <= j < k - 1 ->
                  exists r, eval (load_one (self st) txn j) = OK r
    end.
Proof.
  unfold store_of. intros Hstore.
  destruct (reached_range (fun i => eval (load_one (self st) txn i))
              (total_number (self st)) []) as (k & Hk & Hreached & Hres).
  exists k. split; [done|].
  destruct (env (self st)) as [e|] eqn:Henv.
  - injection Hstore as ->. rewrite (load_data_list_env _ _ txn) by done.
    simpl. by rewrite Hreached.
  - rewrite load_data_list_no_env, Hstore by done. simpl. by rewrite Hreached.
Qed.

Lemma str_head_digit i :
  0 <= i -> exists c rest, str i = String c rest /\ in_range 48 57 (N_of_ascii c) = true.
Proof.
  intros Hi. unfold str. destruct i as [|p|p]; [by eexists _, _| |lia].
  simpl. destruct (Pos.to_uint p); simpl; by eexists _, _.
Qed.

Lemma record_key_not_probed self i :
  0 <= i ->
  record_key self i ≠ "num-samples" /\
  record_key self i ≠ "total_number" /\
  forall j, record_key self i ≠ image_key j.
Proof.
  intros Hi. unfold record_key, label_key, image_key.
  destruct (deprecated_format self); [|by repeat split].
  destruct (str_head_digit i Hi) as (c & rest & -> & Hc).
  repeat split; [| |intros j]; intros Heq; injection Heq as Hhead _;
    subst c; vm_compute in Hc; discriminate.
Qed.

(** X5.  Whatever the format, and whether it returns or raises,
    [load_data_list] fetches neither a count key nor an image key: the
    count and the presence of images are what the constructor found. *)
Theorem load_data_list_fetches_no_probe_key
    (fs : gmap string Env) (st : State) (key : string) :
  Get key ∈ io (snd (load_data_list fs st)) ->
  Get key ∈ io st \/
  (key ≠ "num-samples" /\ key ≠ "total_number" /\ forall j, key ≠ image_key j).
Proof.
  assert (Hgets : forall txn,
    Get key ∈ map (fun i => Get (record_key (self st) i))
                  (reached (fun i => eval (load_one (self st) txn i))
                           (range (total_number (self st)))) ->
    key ≠ "num-samples" /\ key ≠ "total_number" /\ forall j, key ≠ image_key j).
  { intros txn (i & [= ->] & Hi)%list_elem_of_fmap.
    apply reached_subseteq, elem_of_range in Hi.
    apply record_key_not_probed. lia. }
  destruct (env (self st)) as [txn|] eqn:Henv.
  - rewrite (load_data_list_env _ _ txn) by done. simpl.
    intros [?|?]%elem_of_app; eauto.
  - rewrite load_data_list_no_env by done.
    destruct (fs !! ann_file (self st)) as [txn|]; simpl.
    + intros [?|[?|?]%elem_of_cons]%elem_of_app; eauto; done.
    + intros [?|[?|[]%elem_of_nil]%elem_of_cons]%elem_of_app; eauto; done.
Qed.

Lemma load_data_list_fetches_in_order_witness :
  exists k,
    0 <= k <= Z.max 0 2 /\
    io (snd (load_data_list {[ "db" := store_truncated ]}
               {| self := self_truncated; io := [] |})) =
      [] ++ [Open "db"] ++
      map (fun i => Get (record_key self_truncated i)) (range k) /\
    match fst (load_data_list {[ "db" := store_truncated ]}
                 {| self := self_truncated; io := [] |}) with
    | OK _ => k = Z.max 0 2
    | Raise e =>
        1 <= k /\
        eval (load_one self_truncated store_truncated (k - 1)) = Raise e /\
        forall j, 0 <= j < k - 1 ->
                  exists r, eval (load_one self_truncated store_truncated j) = OK r
    end.
Proof.
  apply (load_data_list_fetches_in_order {[ "db" := store_truncated ]}
           {| self := self_truncated; io := [] |} store_truncated).
  reflexivity.
Defined.

Example truncated_fetches :
  io (snd (load_data_list {[ "db" := store_truncated ]}
             {| self := self_truncated; io := [] |})) =
  [Open "db"; Get "label-000000001"; Get "label-000000002"].
Proof. vm_compute. reflexivity. Qed.

(** ** Counts below one *)

Lemma range_nonpositive n : n <= 0 -> range n = [].
Proof. intros Hn. unfold range. by replace (Z.to_nat n) with 0%nat by lia. Qed.

(** X6.  When the count is zero or negative, [load_data_list] returns
    the empty list and fetches nothing, whatever the store holds. *)
Theorem nonpositive_count_loads_nothing
    (fs : gmap string Env) (st : State) (txn : Env) :
  store_of fs st = Some txn ->
  total_number (self st) <= 0 ->
  fst (load_data_list fs st) = OK [] /\
  forall key, Get key ∈ io (snd (load_data_list fs st)) -> Get key ∈ io st.
Proof.
  unfold store_of. intros Hstore Hn.
  destruct (env (self st)) as [e|] eqn:Henv.
  - rewrite (load_data_list_env _ _ e) by done.
    rewrite range_nonpositive by done. simpl. rewrite app_nil_r. by split.
  - rewrite load_data_list_no_env, Hstore by done.
    rewrite range_nonpositive by done. simpl. split; [done|].
    intros key [?|[?|[]%elem_of_nil]%elem_of_cons]%elem_of_app; done.
Qed.

Lemma nonpositive_count_loads_nothing_witness :
  fst (load_data_list {[ "db" := store_negative_count ]}
         {| self := constructed line_json_parser "db" default_parser_cfg
                      "prefix" store_negative_count false (-3);
            io := [] |}) = OK [] /\
  forall key,
    Get key ∈ io (snd (load_data_list {[ "db" := store_negative_count ]}
                         {| self := constructed line_json_parser "db"
                                      default_parser_cfg "prefix"
                                      store_negative_count false (-3);
                            io := [] |})) ->
    Get key ∈ [].
Proof.
  apply (nonpositive_count_loads_nothing {[ "db" := store_negative_count ]}
           {| self := constructed line_json_parser "db" default_parser_cfg
                        "prefix" store_negative_count false (-3);
              io := [] |} store_negative_count).
  - reflexivity.
  - simpl. lia.
Defined.

Example init_negative_count :
  fst (__init__ int_decimal line_json_parser {[ "db" := store_negative_count ]}
         "db" default_parser_cfg "prefix" []) =
  OK (constructed line_json_parser "db" default_parser_cfg "prefix"
        store_negative_count false (-3)).
Proof. vm_compute. reflexivity. Qed.

(** ** The shape of a record *)

Lemma collect_OK_elem {A} (f : Z -> result A) indices acc l :
  collect f indices acc = OK l ->
  forall d, d ∈ l -> d ∈ acc \/ exists i, i ∈ indices /\ f i = OK d.
Proof.
  revert acc. induction indices as [|i rest IH]; intros acc; simpl.
  - intros [= <-] d Hd. by left.
  - destruct (f i) as [r|e] eqn:Hi; [|done]. intros Hl d Hd.
    destruct (IH _ Hl d Hd) as [[Hacc|Hr]%elem_of_app|(j & Hj & Hfj)].
    + by left.
    + apply list_elem_of_singleton in Hr as ->. right. exists i.
      split; [left|done].
    + right. exists j. split; [by right|done].
Qed.

Lemma eval_parse_data_info_OK self raw d :
  eval (parse_data_info self raw) = OK d ->
  exists parsed key0 key1 path txt,
    call (parser self) raw = OK parsed /\
    keys (parser self) !! 0%nat = Some key0 /\
    keys (parser self) !! 1%nat = Some key1 /\
    parsed !! key0 = Some path /\ parsed !! key1 = Some txt /\
    d = {| img_path := osp_join (data_prefix self) path;
           instances := [ {| text := txt |} ] |}.
Proof.
  unfold parse_data_info, eval. run_M.
  destruct (call (parser self) raw) as [parsed|e]; simpl; [|done].
  destruct (keys (parser self) !! 0%nat) as [k0|]; simpl; [|done].
  destruct (parsed !! k0) as [path|] eqn:H0; simpl; [|done].
  destruct (keys (parser self) !! 1%nat) as [k1|]; simpl; [|done].
  destruct (parsed !! k1) as [txt|] eqn:H1; simpl; [|done].
  intros [= <-]. by eexists parsed, k0, k1, path, txt.
Qed.

(** X7.  Every record that [load_data_list] returns holds exactly one
    instance, and its path is the prefix joined with a file name: they
    are the values the line parser returned under its second and its
    first key for the line of some declared index. *)
Theorem records_hold_one_instance
    (fs : gmap string Env) (st : State) (l : list DataInfo) (d : DataInfo) :
  fst (load_data_list fs st) = OK l ->
  d ∈ l ->
  exists txn i line parsed key0 key1 path txt,
    store_of fs st = Some txn /\
    0 <= i < total_number (self st) /\
    eval (read_line (self st) txn i) = OK line /\
    call (parser (self st)) line = OK parsed /\
    keys (parser (self st)) !! 0%nat = Some key0 /\
    keys (parser (self st)) !! 1%nat = Some key1 /\
    parsed !! key0 = Some path /\ parsed !! key1 = Some txt /\
    d = {| img_path := osp_join (data_prefix (self st)) path;
           instances := [ {| text := txt |} ] |}.
Proof.
  rewrite load_data_list_result.
  destruct (store_of fs st) as [txn|]; [|done]. intros Hl Hd.
  destruct (collect_OK_elem _ _ _ _ Hl d Hd) as [[]%elem_of_nil|(i & Hi & Hfi)].
  apply elem_of_range in Hi. rewrite eval_load_one in Hfi.
  destruct (eval (read_line (self st) txn i)) as [line|] eqn:Hline; [|done].
  apply eval_parse_data_info_OK in Hfi
    as (parsed & k0 & k1 & path & txt & ? & ? & ? & ? & ? & ->).
  by eexists txn, i, line, parsed, k0, k1, path, txt.
Qed.

Lemma records_hold_one_instance_witness :
  exists txn i line parsed key0 key1 path txt,
    store_of {[ "db" := store_modern ]}
      {| self := constructed line_json_parser "db" default_parser_cfg "prefix"
                   store_modern false 2; io := [] |} = Some txn /\
    0 <= i < 2 /\
    eval (read_line (constructed line_json_parser "db" default_parser_cfg
                       "prefix" store_modern false 2) txn i) = OK line /\
    line_json_parser ["filename"; "text"] line = OK parsed /\
    ["filename"; "text"] !! 0%nat = Some key0 /\
    ["filename"; "text"] !! 1%nat = Some key1 /\
    parsed !! key0 = Some path /\ parsed !! key1 = Some txt /\
    {| img_path := "prefix/image-000000001";
       instances := [ {| text := "hello" |} ] |} =
    {| img_path := osp_join "prefix" path; instances := [ {| text := txt |} ] |}.
Proof.
  apply (records_hold_one_instance {[ "db" := store_modern ]}
           {| self := constructed line_json_parser "db" default_parser_cfg
                        "prefix" store_modern false 2; io := [] |}
           [ {| img_path := "prefix/image-000000001";
                instances := [ {| text := "hello" |} ] |};
             {| img_path := "prefix/image-000000002";
                instances := [ {| text := "world" |} ] |} ]).
  - vm_compute. reflexivity.
  - left.
Defined.

(** ** The environment is opened once *)




(** ** The keys of the records *)

Lemma uint_of_string_zeros k d :
  NilEmpty.uint_of_string (zeros k +:+ NilEmpty.string_of_uint d) =
  Some (Nat.iter k Decimal.D0 d).
Proof.
  induction k as [|k IH]; simpl.
  - apply NilEmpty.usu.
  - by rewrite IH.
Qed.

Lemma of_uint_zeros k d : Z.of_uint (Nat.iter k Decimal.D0 d) = Z.of_uint d.
Proof. induction k as [|k IH]; simpl; [done|]. by rewrite <- IH. Qed.

Lemma str_nonneg i :
  0 <= i -> exists d, str i = NilEmpty.string_of_uint d /\ Z.of_uint d = i.
Proof.
  intros Hi. unfold str. destruct i as [|p|p]; [by exists (Decimal.D0 Decimal.Nil)| |lia].
  exists (Pos.to_uint p). split.
  - simpl. destruct (Pos.to_uint p) eqn:Hp; try done.
    by destruct (DecimalPos.Unsigned.to_uint_nonnil p).
  - unfold Z.of_uint. by rewrite DecimalPos.Unsigned.of_to.
Qed.

Lemma read_index_str i : 0 <= i -> read_index (str i) = Some i.
Proof.
  intros Hi. destruct (str_nonneg i Hi) as (d & -> & <-).
  unfold read_index. by rewrite NilEmpty.usu.
Qed.

Lemma read_index_format_09d i : 0 <= i -> read_index (format_09d i) = Some i.
Proof.
  intros Hi. unfold format_09d. destruct (Z.ltb_spec i 0); [lia|].
  destruct (str_nonneg i Hi) as (d & -> & <-).
  unfold read_index. by rewrite uint_of_string_zeros, of_uint_zeros.
Qed.

Lemma string_app_length (a b : string) :
  String.length (a +:+ b) = (String.length a + String.length b)%nat.
Proof. induction a as [|c a IH]; simpl; [done|]. by rewrite IH. Qed.

Lemma zeros_length k : String.length (zeros k) = k.
Proof. induction k as [|k IH]; simpl; [done|]. by rewrite IH. Qed.

Lemma string_app_inv_head (p a b : string) : p +:+ a = p +:+ b -> a = b.
Proof. induction p as [|c p IH]; simpl; [done|]. intros [= H]. by apply IH. Qed.

(** X9.  The keys of the records do not collide: two indices from zero
    on have the same key only when they are equal, in the deprecated
    format as in the modern one.  The number in a modern key takes nine
    characters, and more when the index has more digits. *)
Theorem record_keys_are_distinct (self : RecogLMDBDataset) (i j : Z) :
  0 <= i -> 0 <= j ->
  (record_key self i = record_key self j -> i = j) /\
  (image_key (i + 1) = image_key (j + 1) -> i = j) /\
  String.length (format_09d (i + 1)) =
    Nat.max 9 (String.length (str (i + 1))).
Proof.
  intros Hi Hj.
  assert (Hfmt : forall a b, 0 <= a -> 0 <= b ->
                             format_09d a = format_09d b -> a = b).
  { intros a b Ha Hb Hab.
    assert (Some a = Some b) as [= ->]; [|done].
    by rewrite <- (read_index_format_09d a), <- (read_index_format_09d b), Hab. }
  split; [|split].
  - unfold record_key, label_key. destruct (deprecated_format self).
    + intros Hij. assert (Some i = Some j) as [= ->]; [|done].
      by rewrite <- (read_index_str i), <- (read_index_str j), Hij.
    + intros Hij%string_app_inv_head. apply Hfmt in Hij; lia.
  - unfold image_key. intros Hij%string_app_inv_head. apply Hfmt in Hij; lia.
  - unfold format_09d. destruct (Z.ltb_spec (i + 1) 0); [lia|].
    rewrite string_app_length, zeros_length. lia.
Qed.

Lemma record_keys_are_distinct_witness :
  (record_key self_truncated 0 = record_key self_truncated 1 -> 0 = 1) /\
  (image_key (0 + 1) = image_key (1 + 1) -> 0 = 1) /\
  String.length (format_09d (0 + 1)) = Nat.max 9 (String.length (str (0 + 1))).
Proof.
  apply (record_keys_are_distinct self_truncated 0 1); lia.
Defined.

Example format_09d_wide :
  format_09d 1234567890 = "1234567890" /\ format_09d 7 = "000000007".
Proof. split; reflexivity. Qed.

(** ** The deprecated branch on every value of one space *)

Lemma lstrip_app_space chars f t :
  mem_char " " chars = false ->
  lstrip chars (f +:+ String " " t) = lstrip chars f +:+ String " " t.
Proof.
  intros Hsp. induction f as [|c f IH]; simpl; [by rewrite Hsp|].
  by destruct (mem_char c chars).
Qed.

Lemma rstrip_app_space chars g t :
  mem_char " " chars = false ->
  rstrip chars (g +:+ String " " t) = g +:+ String " " (rstrip chars t).
Proof.
  intros Hsp. induction g as [|c g IH]; simpl.
  - rewrite Hsp. by destruct (rstrip chars t).
  - rewrite IH. by destruct g.
Qed.

Lemma strip_app_space chars f t :
  mem_char " " chars = false ->
  strip chars (f +:+ String " " t) =
  lstrip chars f +:+ String " " (rstrip chars t).
Proof.
  intros Hsp. unfold strip. by rewrite lstrip_app_space, rstrip_app_space.
Qed.

Section DeprecatedStrip.
Variable int : string -> option Z.
Variable LineJsonParser : list string -> string -> result (gmap string string).

(** X10.  In a deprecated store whose values are each a file name, one
    space and a text, file name and text without a space,
    [load_data_list] returns for each value the record of the file name
    without the slashes and the letters [n] it begins with, joined to the
    prefix, and of the text without the slashes and the letters [n] it
    ends with; a newline at the end of the text stays. *)
Theorem deprecated_records_stripped
    (fs : gmap string Env) (ann pre : string) (store : Env) (N : Z)
    (fname txt : Z -> string) (io0 : list event) :
  fs !! ann = Some store ->
  store !! "num-samples" = None ->
  count_at int store "total_number" = Some N ->
  (forall i, 0 <= i < N ->
     exists b, store !! str i = Some b /\
               decode_utf8 b = OK (fname i +:+ String " " (txt i)) /\
               count_char " " (fname i) = 0%nat /\
               count_char " " (txt i) = 0%nat) ->
  inverts_dumps (LineJsonParser ["filename"; "text"]) ->
  exists self tr,
    __init__ int LineJsonParser fs ann default_parser_cfg pre io0 = (OK self, tr) /\
    fst (load_data_list fs {| self := self; io := tr |}) =
      OK (map (fun i => {| img_path := osp_join pre (lstrip "/n" (fname i));
                           instances := [ {| text := rstrip "/n" (txt i) |} ] |})
              (range N)).
Proof.
  intros Hopen Hns Hcount Hrec Hinv.
  eexists _, _. split; [by apply (init_deprecated _ _ _ _ _ _ store)|].
  rewrite load_data_list_result. unfold store_of. simpl. rewrite Hopen.
  apply (collect_all_OK _ (fun i =>
    {| img_path := osp_join pre (lstrip "/n" (fname i));
       instances := [ {| text := rstrip "/n" (txt i) |} ] |})).
  intros i Hi%elem_of_range. rewrite eval_load_one, eval_read_line. simpl.
  destruct (Hrec i Hi) as (b & -> & Hb & Hf & Ht). simpl. rewrite Hb.
  rewrite strip_app_space by done.
  rewrite split_app, split_no_sep
    by (by rewrite ?count_char_lstrip, ?count_char_rstrip).
  by rewrite eval_parse_data_info_dumps.
Qed.
End DeprecatedStrip.

Lemma deprecated_records_stripped_witness :
  exists self tr,
    __init__ int_decimal line_json_parser {[ "db" := store_slash_newline ]} "db"
             default_parser_cfg "prefix" [] = (OK self, tr) /\
    fst (load_data_list {[ "db" := store_slash_newline ]}
           {| self := self; io := tr |}) =
      OK [ {| img_path := "prefix/data/img1.png";
              instances := [ {| text := "can" +:+ String (ascii_of_N 10) EmptyString |} ] |} ].
Proof.
  apply (deprecated_records_stripped int_decimal line_json_parser
           {[ "db" := store_slash_newline ]} "db" "prefix" store_slash_newline 1
           (fun _ => "/data/img1.png")
           (fun _ => "can" +:+ String (ascii_of_N 10) EmptyString) []).
  - reflexivity.
  - reflexivity.
  - reflexivity.
  - intros i Hi. assert (i = 0) as -> by lia.
    eexists; repeat split; reflexivity.
  - apply line_json_parser_inverts_dumps.
Defined.

Example strip_slash_n :
  strip "/n" "name.png nun" = "ame.png nu" /\
  strip "/n" line_slash_newline =
    "data/img1.png can" +:+ String (ascii_of_N 10) EmptyString.
Proof. split; reflexivity. Qed.

(** ** Exceptions of a record *)

(** X11.  When the scan reaches a value that is not well-formed UTF-8,
    [load_data_list] raises [UnicodeDecodeError], in every format. *)
Theorem undecodable_value_raises
    (fs : gmap string Env) (st : State) (txn : Env) (i : Z) (b : string) :
  store_of fs st = Some txn ->
  0 <= i < total_number (self st) ->
  (forall j, 0 <= j < i -> exists r, eval (load_one (self st) txn j) = OK r) ->
  txn !! record_key (self st) i = Some b ->
  utf8_run U_start b = false ->
  fst (load_data_list fs st) = Raise UnicodeDecodeError.
Proof.
  intros Hstore Hi Hbefore Hb Hutf.
  apply (load_data_list_first_Raise _ _ txn i); try done.
  rewrite eval_load_one, eval_read_line. unfold record_key in Hb.
  destruct (deprecated_format (self st)); [|destruct (label_only (self st))];
    rewrite Hb; unfold decode, decode_utf8; by rewrite Hutf.
Qed.

(** X12.  An exception that the line parser raises on the line of a
    record leaves [load_data_list] unchanged, when the scan reaches that
    record. *)
Theorem parser_exception_propagates
    (fs : gmap string Env) (st : State) (txn : Env) (i : Z) (line : string)
    (e : exn) :
  store_of fs st = Some txn ->
  0 <= i < total_number (self st) ->
  (forall j, 0 <= j < i -> exists r, eval (load_one (self st) txn j) = OK r) ->
  eval (read_line (self st) txn i) = OK line ->
  call (parser (self st)) line = Raise e ->
  fst (load_data_list fs st) = Raise e.
Proof.
  intros Hstore Hi Hbefore Hline Hcall.
  apply (load_data_list_first_Raise _ _ txn i); try done.
  rewrite eval_load_one, Hline. unfold parse_data_info, eval. run_M.
  by rewrite Hcall.
Qed.

Lemma undecodable_value_raises_witness :
  fst (load_data_list {[ "db" := store_bad_utf8 ]}
         {| self := constructed line_json_parser "db" default_parser_cfg
                      "prefix" store_bad_utf8 false 1; io := [] |})
  = Raise UnicodeDecodeError.
Proof.
  apply (undecodable_value_raises {[ "db" := store_bad_utf8 ]}
           {| self := constructed line_json_parser "db" default_parser_cfg
                        "prefix" store_bad_utf8 false 1; io := [] |}
           store_bad_utf8 0 (String (ascii_of_N 255) EmptyString)).
  - reflexivity.
  - simpl. lia.
  - intros j Hj. lia.
  - reflexivity.
  - reflexivity.
Defined.

Lemma parser_exception_propagates_witness :
  fst (load_data_list {[ "db" := store_bad_json ]}
         {| self := constructed line_json_parser "db" default_parser_cfg
                      "prefix" store_bad_json false 1; io := [] |})
  = Raise ParserError.
Proof.
  apply (parser_exception_propagates {[ "db" := store_bad_json ]}
           {| self := constructed line_json_parser "db" default_parser_cfg
                        "prefix" store_bad_json false 1; io := [] |}
           store_bad_json 0 "not json" ParserError).
  - reflexivity.
  - simpl. lia.
  - intros j Hj. lia.
  - reflexivity.
  - reflexivity.
Defined.

(** ** What of the store the outcome depends on *)

Lemma eval_load_one_agree o txn1 txn2 i :
  txn1 !! record_key o i = txn2 !! record_key o i ->
  eval (load_one o txn1 i) = eval (load_one o txn2 i).
Proof.
  unfold record_key. rewrite !eval_load_one, !eval_read_line.
  destruct (deprecated_format o); [|destruct (label_only o)]; by intros ->.
Qed.

Section Dependence.
Variable int : string -> option Z.
Variable LineJsonParser : list string -> string -> result (gmap string string).

(** X13.  The outcome of the constructor followed by [load_data_list]
    depends on the store through the two count keys, the presence of the
    first image key and the keys of the records only.  Two stores that
    agree on these give the same outcome: the bytes of an image, and the
    presence of any image but the first, do not matter. *)
Theorem outcome_depends_on_counts_probe_and_records
    (fs1 fs2 : gmap string Env) (ann pre : string) (parser_cfg : ParserCfg)
    (store1 store2 : Env) :
  fs1 !! ann = Some store1 ->
  fs2 !! ann = Some store2 ->
  store1 !! "num-samples" = store2 !! "num-samples" ->
  store1 !! "total_number" = store2 !! "total_number" ->
  (store1 !! image_key 1 = None <-> store2 !! image_key 1 = None) ->
  (forall i, 0 <= i -> store1 !! str i = store2 !! str i) ->
  (forall i, 1 <= i -> store1 !! label_key i = store2 !! label_key i) ->
  probe_and_decode int LineJsonParser fs1 ann parser_cfg pre =
  probe_and_decode int LineJsonParser fs2 ann parser_cfg pre.
Proof.
  intros Hopen1 Hopen2 Hns Htn Himg Hdec Hlab. unfold probe_and_decode.
  destruct (decide (cfg_type parser_cfg = "LineJsonParser")) as [Htype|Htype];
    [destruct (decide (length (cfg_keys parser_cfg) = 2%nat)) as [Hlen|Hlen]|];
    [|by rewrite !init_unsupported by by right
     |by rewrite !init_unsupported by by left].
  rewrite (init_run int LineJsonParser fs1 ann parser_cfg pre store1 Htype Hlen Hopen1).
  rewrite (init_run int LineJsonParser fs2 ann parser_cfg pre store2 Htype Hlen Hopen2).
  assert (Hprobe : probe_label_only store1 = probe_label_only store2).
  { unfold probe_label_only.
    destruct (store1 !! image_key 1), (store2 !! image_key 1); try done.
    - by pose proof (proj2 Himg eq_refl).
    - by pose proof (proj1 Himg eq_refl). }
  assert (Hobj : forall d n,
    constructed LineJsonParser ann parser_cfg pre store1 d n =
    constructed LineJsonParser ann parser_cfg pre store2 d n).
  { intros d n. unfold constructed. by rewrite Hprobe. }
  assert (Hload : forall d n tr1 tr2,
    fst (load_data_list fs1
           {| self := constructed LineJsonParser ann parser_cfg pre store1 d n;
              io := tr1 |}) =
    fst (load_data_list fs2
           {| self := constructed LineJsonParser ann parser_cfg pre store2 d n;
              io := tr2 |})).
  { intros d n tr1 tr2. rewrite !load_data_list_result. unfold store_of. simpl.
    rewrite Hopen1, Hopen2, Hobj. apply collect_ext.
    intros i Hi%elem_of_range. apply eval_load_one_agree.
    unfold record_key. simpl. destruct d; [apply Hdec|apply Hlab]; lia. }
  rewrite Hns, Htn.
  destruct (store2 !! "num-samples") as [b|];
    [|destruct (store2 !! "total_number") as [b|]; [|done]];
    (destruct (utf8_run U_start b); [|done]);
    (destruct (int b); [apply Hload|done]).
Qed.
End Dependence.

(** The modern sample store with another first image and a second one. *)
Lemma outcome_depends_on_counts_probe_and_records_witness :
  probe_and_decode int_decimal line_json_parser {[ "db" := store_modern ]}
    "db" default_parser_cfg "prefix" =
  probe_and_decode int_decimal line_json_parser
    {[ "db" := <[ "image-000000002" := "JPG" ]>
                 (<[ "image-000000001" := "GIF" ]> store_modern) ]}
    "db" default_parser_cfg "prefix".
Proof.
  apply (outcome_depends_on_counts_probe_and_records int_decimal line_json_parser
           {[ "db" := store_modern ]}
           {[ "db" := <[ "image-000000002" := "JPG" ]>
                        (<[ "image-000000001" := "GIF" ]> store_modern) ]}
           "db" "prefix" default_parser_cfg store_modern
           (<[ "image-000000002" := "JPG" ]>
              (<[ "image-000000001" := "GIF" ]> store_modern))).
  - reflexivity.
  - reflexivity.
  - reflexivity.
  - reflexivity.
  - split; discriminate.
  - intros i Hi. symmetry.
    destruct (record_key_not_probed self_one_field i Hi) as (_ & _ & Himg).
    etrans; [apply lookup_insert_ne|apply lookup_insert_ne];
      intros Heq; [apply (Himg 2)|apply (Himg 1)]; exact (eq_sym Heq).
  - intros i Hi. symmetry.
    etrans; [apply lookup_insert_ne|apply lookup_insert_ne];
      [apply (image_key_not_label_key 2)|apply (image_key_not_label_key 1)].
Defined.

(** ** The path of a record *)

Lemma osp_join_suffix a b : exists p, osp_join a b = p +:+ b.
Proof.
  unfold osp_join. destruct (startswith_sep b); [by exists EmptyString|].
  destruct (String.eqb a EmptyString || endswith_sep a); [by exists a|].
  exists (a +:+ "/"). by rewrite string_app_assoc.
Qed.

(** X14.  The path of a record ends with the file name the parser
    returned; it is that file name when the prefix is empty, as it is by
    default, and when the file name begins with a slash, which discards
    the prefix. *)
Theorem img_path_ends_with_file_name
    (self : RecogLMDBDataset) (raw : string) (d : DataInfo) :
  eval (parse_data_info self raw) = OK d ->
  exists parsed key0 path,
    call (parser self) raw = OK parsed /\
    keys (parser self) !! 0%nat = Some key0 /\
    parsed !! key0 = Some path /\
    (exists p, img_path d = p +:+ path) /\
    (data_prefix self = EmptyString -> img_path d = path) /\
    (startswith_sep path = true -> img_path d = path).
Proof.
  intros (parsed & k0 & k1 & path & txt & Hcall & H0 & H1 & Hp & Ht & ->)
    %eval_parse_data_info_OK.
  exists parsed, k0, path. repeat split; try done; simpl.
  - apply osp_join_suffix.
  - intros ->. unfold osp_join. by destruct (startswith_sep path).
  - intros Habs. unfold osp_join. by rewrite Habs.
Qed.

Lemma img_path_ends_with_file_name_witness :
  exists parsed key0 path,
    line_json_parser ["filename"; "text"] (json_dumps "/abs/a.png" "hi") = OK parsed /\
    ["filename"; "text"] !! 0%nat = Some key0 /\
    parsed !! key0 = Some path /\
    (exists p, "/abs/a.png" = p +:+ path) /\
    ("prefix" = EmptyString -> "/abs/a.png" = path) /\
    (startswith_sep path = true -> "/abs/a.png" = path).
Proof.
  apply (img_path_ends_with_file_name self_truncated
           (json_dumps "/abs/a.png" "hi")
           {| img_path := "/abs/a.png"; instances := [ {| text := "hi" |} ] |}).
  vm_compute. reflexivity.
Defined.

Lemma load_data_list_fetches_no_probe_key_witness :
  Get "label-000000002" ∈ [] \/
  ("label-000000002" ≠ "num-samples" /\ "label-000000002" ≠ "total_number" /\
   forall j, "label-000000002" ≠ image_key j).
Proof.
  apply (load_data_list_fetches_no_probe_key {[ "db" := store_truncated ]}
           {| self := self_truncated; io := [] |} "label-000000002").
  vm_compute. right. right. left.
Defined.
